(** * The rioxarray lecture notebook, as a program over an external library

    [book/geospatial/rioxarray.ipynb] is a Jupyter notebook: a list of code
    cells, run top to bottom in one Python namespace.  Every cell is a short
    straight-line sequence of name bindings, attribute reads and calls into
    external libraries (rioxarray, xarray, geopandas, matplotlib).

    The embedding keeps that shape.  A cell is a computation in a small monad
    [nb]: it threads the notebook's namespace and issues [action]s, the
    requests the notebook makes to code it does not own.  The libraries
    themselves are a parameter of the interpreter [interp]: a function that
    answers each action in a world of its own. *)

From Stdlib Require Import String List ZArith QArith Bool Arith Lia Lqa.
Import ListNotations.
Set Warnings "-register-all".
Open Scope string_scope.
Open Scope list_scope.
Open Scope nat_scope.

(** ** Python values that the notebook handles *)

(** Literals are kept as written ([VFloat] holds the decimal literal as a
    rational).  Everything else a library constructs is an opaque reference
    [VObj].  An answer that is an iterable is given by its items, as a
    [VTuple], a [VList] or a [VStr]: in the one place where the notebook
    iterates over an answer (the assignment [fig, ax = ...] of cell 31) an
    opaque reference counts as an object that cannot be iterated over. *)
Inductive value : Type :=
| VNone
| VBool (b : bool)
| VInt (z : Z)
| VFloat (q : Q)
| VStr (s : string)
| VList (items : list value)
| VTuple (items : list value)
| VSlice (start stop : value)
| VModule (name : string)
| VObj (id : nat).

Definition kwargs := list (string * value).

(** ** Requests to external code *)

(** [ImportModule m] is [import m]; [GetAttr o a] reads the property [o.a]
    of a library object (accessor paths such as [rio.crs] are one read);
    [Invoke f args kw] calls a function: for a module function [f] is the
    qualified name, for a method [f] is the method path and the receiver is
    the first argument. *)
Inductive action : Type :=
| ImportModule (module : string)
| GetAttr (obj : value) (attr : string)
| Invoke (fn : string) (args : list value) (kw : kwargs).

(** Exceptions: the three the Python runtime can raise for the notebook's
    own statements, and whatever a library raises. *)
Inductive exn : Type :=
| NameError (name : string)
| TypeError (what : string)
| ValueError (what : string)
| LibraryError (e : value).

(** What a library answers: a value, or an exception it raised. *)
Inductive result : Type :=
| Ok (v : value)
| Err (e : value).

(** ** Programs *)

(** A program returns, raises, or performs an action and continues with
    its answer.  The continuation sees the answer as it is, so a program
    decides itself what a library's exception leads to. *)
Inductive prog (A : Type) : Type :=
| Ret (a : A)
| Throw (e : exn)
| Act (a : action) (k : result -> prog A).

Arguments Ret {A} a.
Arguments Throw {A} e.
Arguments Act {A} a k.

Fixpoint pbind {A B : Type} (p : prog A) (f : A -> prog B) : prog B :=
  match p with
  | Ret a => f a
  | Throw e => Throw e
  | Act a k => Act a (fun r => pbind (k r) f)
  end.

(** The notebook's global namespace, as the list of its bindings, latest
    first.  A lookup sees the latest binding of a name, as a dict would;
    the list also remembers every assignment that was made. *)
Definition namespace := list (string * value).

Fixpoint lookup (x : string) (ns : namespace) : option value :=
  match ns with
  | [] => None
  | (y, v) :: rest => if String.eqb x y then Some v else lookup x rest
  end.

Definition nb (A : Type) : Type := namespace -> prog (A * namespace).

Definition ret {A : Type} (a : A) : nb A := fun ns => Ret (a, ns).

Definition bind {A B : Type} (m : nb A) (f : A -> nb B) : nb B :=
  fun ns => pbind (m ns) (fun r => f (fst r) (snd r)).

Definition throw {A : Type} (e : exn) : nb A := fun _ => Throw e.

(** A call outside any [try] block: the value comes back, an exception
    goes on up as it is. *)
Definition perform (a : action) : nb value :=
  fun ns => Act a (fun r => match r with
                            | Ok v => Ret (v, ns)
                            | Err e => Throw (LibraryError e)
                            end).

Declare Scope nb_scope.
Delimit Scope nb_scope with nb.
Notation "x <- c1 ;; c2" := (bind c1 (fun x => c2))
  (at level 61, c1 at next level, right associativity) : nb_scope.
Notation "c1 ;; c2" := (bind c1 (fun _ => c2))
  (at level 61, right associativity) : nb_scope.
Open Scope nb_scope.

(** *** The Python statements and expressions the cells use *)

(** [x = v] *)
Definition assign (x : string) (v : value) : nb unit :=
  fun ns => Ret (tt, (x, v) :: ns).

(** Reading a global name; an unbound one raises [NameError]. *)
Definition name (x : string) : nb value :=
  fun ns => match lookup x ns with
            | Some v => Ret (v, ns)
            | None => Throw (NameError x)
            end.

(** [import m as alias] *)
Definition import_as (module alias : string) : nb unit :=
  _ <- perform (ImportModule module) ;;
  assign alias (VModule module).

(** A call [m.f(...)] where [m] is an imported module. *)
Definition modcall (m : value) (f : string) (args : list value) (kw : kwargs)
  : nb value :=
  match m with
  | VModule n => perform (Invoke (n ++ "." ++ f) args kw)
  | _ => perform (Invoke f (m :: args) kw)
  end.

(** A call [o.f(...)] where [o] is an object. *)
Definition method (o : value) (f : string) (args : list value) (kw : kwargs)
  : nb value :=
  perform (Invoke f (o :: args) kw).

(** [o.a] *)
Definition getattr (o : value) (a : string) : nb value :=
  perform (GetAttr o a).

(** The builtin [print(v)]. *)
Definition print (v : value) : nb value :=
  perform (Invoke "print" [v] []).

(** A cell whose last statement is an expression hands its value to the
    display hook (which shows nothing for [None]). *)
Definition echo (v : value) : nb unit :=
  _ <- perform (Invoke "displayhook" [v] []) ;;
  ret tt.

(** Iteration over a value: the elements of a list or a tuple, the
    one-character strings of a string; [None], a number, a slice, a module
    and an opaque reference are not iterable. *)
Fixpoint chars (s : string) : list value :=
  match s with
  | EmptyString => []
  | String c rest => VStr (String c EmptyString) :: chars rest
  end.

Definition items (v : value) : option (list value) :=
  match v with
  | VList l => Some l
  | VTuple l => Some l
  | VStr s => Some (chars s)
  | _ => None
  end.

(** Star-unpacking of an argument: the items of an iterable become
    positional arguments; anything else is a [TypeError]. *)
Definition star (v : value) : nb (list value) :=
  match items v with
  | Some l => ret l
  | None => throw (TypeError "argument after * must be an iterable")
  end.

(** [a, b = v]: an iterable of two items is taken apart; an iterable of
    fewer or of more raises [ValueError], and a value that is not iterable
    raises [TypeError]. *)
Definition unpack2 (v : value) : nb (value * value) :=
  match items v with
  | None => throw (TypeError "cannot unpack non-iterable object")
  | Some l =>
      match l with
      | [a; b] => ret (a, b)
      | [] | [_] => throw (ValueError "not enough values to unpack (expected 2)")
      | _ => throw (ValueError "too many values to unpack (expected 2)")
      end
  end.

(** A [try: body except: handler] block.  No cell uses one; it is here so
    that its absence can be observed. *)
Fixpoint pcatch {A : Type} (p : prog A) (h : exn -> prog A) : prog A :=
  match p with
  | Ret a => Ret a
  | Throw e => h e
  | Act a k => Act a (fun r => pcatch (k r) h)
  end.

Definition try_except {A : Type} (body : nb A) (handler : exn -> nb A) : nb A :=
  fun ns => pcatch (body ns) (fun e => handler e ns).

(** ** The code cells of the notebook, by cell id *)

Definition raster_url : string :=
  "https://github.com/opengeos/datasets/releases/download/raster/LC09_039035_20240708_90m.tif".

Definition boundary_url : string :=
  "https://github.com/opengeos/datasets/releases/download/places/las_vegas_bounds_utm.geojson".

(** Each cell is given with the source lines it embeds (line numbers of the
    .ipynb file).  A method reached through an accessor ([data.rio.reproject],
    [x.plot.imshow]) is one call named by its path; string literals are
    written with single quotes here. *)

(** Cell 1 (line 37), a comment only:
    [# %pip install rioxarray rasterio] *)
Definition cell_1 : nb unit := ret tt.

(** Cell 3 (lines 57-61):
    [import rioxarray]
    [import xarray as xr]
    [import matplotlib.pyplot as plt]
    [xr.set_options(keep_attrs=True, display_expand_data=False)] *)
Definition cell_3 : nb unit :=
  import_as "rioxarray" "rioxarray" ;;
  import_as "xarray" "xr" ;;
  import_as "matplotlib.pyplot" "plt" ;;
  xr <- name "xr" ;;
  r <- modcall xr "set_options" []
         [("keep_attrs", VBool true); ("display_expand_data", VBool false)] ;;
  echo r.

(** Cell 5 (lines 82-84):
    [url = 'https://github.com/opengeos/.../LC09_039035_20240708_90m.tif']
    [data = rioxarray.open_rasterio(url)]
    [data] *)
Definition cell_5 : nb unit :=
  assign "url" (VStr raster_url) ;;
  rioxarray <- name "rioxarray" ;;
  url <- name "url" ;;
  r <- modcall rioxarray "open_rasterio" [url] [] ;;
  assign "data" r ;;
  data <- name "data" ;;
  echo data.

(** Cells 7, 8, 9 (lines 107, 117, 127):
    [print(data.dims)], [print(data.coords)], [print(data.attrs)]. *)
Definition print_attr (x a : string) : nb unit :=
  o <- name x ;;
  v <- getattr o a ;;
  r <- print v ;;
  echo r.

Definition cell_7 : nb unit := print_attr "data" "dims".
Definition cell_8 : nb unit := print_attr "data" "coords".
Definition cell_9 : nb unit := print_attr "data" "attrs".

(** Cell 11 (line 148): [print(data.rio.crs)]. *)
Definition cell_11 : nb unit := print_attr "data" "rio.crs".

(** Cell 12 (line 159): [print(data.rio.transform())]. *)
Definition cell_12 : nb unit :=
  data <- name "data" ;;
  t <- method data "rio.transform" [] [] ;;
  r <- print t ;;
  echo r.

(** Cell 14 (lines 182-183):
    [data_reprojected = data.rio.reproject('EPSG:4326')]
    [print(data_reprojected.rio.crs)] *)
Definition cell_14 : nb unit :=
  data <- name "data" ;;
  r <- method data "rio.reproject" [VStr "EPSG:4326"] [] ;;
  assign "data_reprojected" r ;;
  print_attr "data_reprojected" "rio.crs".

(** Cell 16 (lines 204-207):
    [bbox = [-115.391, 35.982, -114.988, 36.425]]
    [clipped_data = data_reprojected.rio.clip_box( *bbox)] *)
Definition cell_16 : nb unit :=
  assign "bbox" (VList [VFloat (-115391 # 1000); VFloat (35982 # 1000);
                        VFloat (-114988 # 1000); VFloat (36425 # 1000)]) ;;
  data_reprojected <- name "data_reprojected" ;;
  bbox <- name "bbox" ;;
  args <- star bbox ;;
  r <- method data_reprojected "rio.clip_box" args [] ;;
  assign "clipped_data" r.

(** Cells 17, 20, 23 (lines 217, 252, 287): [x.shape] as the cell's value. *)
Definition show_shape (x : string) : nb unit :=
  o <- name x ;;
  s <- getattr o "shape" ;;
  echo s.

Definition cell_17 : nb unit := show_shape "clipped_data".

(** Cell 19 (lines 235-242):
    [import geopandas as gpd]
    [geojson_path = 'https://github.com/opengeos/.../las_vegas_bounds_utm.geojson']
    [bounds = gpd.read_file(geojson_path)]
    [clipped_data2 = data.rio.clip(bounds.geometry, bounds.crs)] *)
Definition cell_19 : nb unit :=
  import_as "geopandas" "gpd" ;;
  assign "geojson_path" (VStr boundary_url) ;;
  gpd <- name "gpd" ;;
  geojson_path <- name "geojson_path" ;;
  r <- modcall gpd "read_file" [geojson_path] [] ;;
  assign "bounds" r ;;
  data <- name "data" ;;
  bounds <- name "bounds" ;;
  geometry <- getattr bounds "geometry" ;;
  bounds <- name "bounds" ;;
  crs <- getattr bounds "crs" ;;
  r <- method data "rio.clip" [geometry; crs] [] ;;
  assign "clipped_data2" r.

Definition cell_20 : nb unit := show_shape "clipped_data2".

(** Cell 22 (line 277):
    [resampled_data = data.rio.reproject(data.rio.crs, resolution=(1000, 1000))] *)
Definition cell_22 : nb unit :=
  data <- name "data" ;;
  data' <- name "data" ;;
  crs <- getattr data' "rio.crs" ;;
  r <- method data "rio.reproject" [crs]
         [("resolution", VTuple [VInt 1000; VInt 1000])] ;;
  assign "resampled_data" r.

Definition cell_23 : nb unit := show_shape "resampled_data".

(** Cell 25 (lines 308-313):
    [min_x, max_x = -115.391, -114.988]
    [min_y, max_y = 35.982, 36.425]
    [subset = data_reprojected.sel(x=slice(min_x, max_x), y=slice(max_y, min_y))]
    [subset.shape]
    The four bounds are the decimal literals of the cell; [slice] builds a
    value and calls nothing outside. *)
Definition min_x : Q := -115391 # 1000.
Definition max_x : Q := -114988 # 1000.
Definition min_y : Q := 35982 # 1000.
Definition max_y : Q := 36425 # 1000.

Definition cell_25 : nb unit :=
  assign "min_x" (VFloat min_x) ;;
  assign "max_x" (VFloat max_x) ;;
  assign "min_y" (VFloat min_y) ;;
  assign "max_y" (VFloat max_y) ;;
  data_reprojected <- name "data_reprojected" ;;
  min_x <- name "min_x" ;;
  max_x <- name "max_x" ;;
  max_y <- name "max_y" ;;
  min_y <- name "min_y" ;;
  r <- method data_reprojected "sel" []
         [("x", VSlice min_x max_x); ("y", VSlice max_y min_y)] ;;
  assign "subset" r ;;
  show_shape "subset".

(** Cells 27 and 29 (lines 334-339 and 358-363), for [x] the name
    [data_reprojected] or [clipped_data]:
    [plt.figure(figsize=(8, 8))]
    [x.sel(band=[4, 3, 2]).plot.imshow(vmin=0, vmax=0.3)]
    [plt.title('Landsat Image covering Las Vegas')]
    [plt.xlabel('Longitude')]
    [plt.ylabel('Latitude')]
    [plt.show()] *)
Definition plot_rgb (x : string) : nb unit :=
  plt <- name "plt" ;;
  _ <- modcall plt "figure" [] [("figsize", VTuple [VInt 8; VInt 8])] ;;
  o <- name x ;;
  rgb <- method o "sel" [] [("band", VList [VInt 4; VInt 3; VInt 2])] ;;
  _ <- method rgb "plot.imshow" []
         [("vmin", VInt 0); ("vmax", VFloat (3 # 10))] ;;
  plt <- name "plt" ;;
  _ <- modcall plt "title" [VStr "Landsat Image covering Las Vegas"] [] ;;
  plt <- name "plt" ;;
  _ <- modcall plt "xlabel" [VStr "Longitude"] [] ;;
  plt <- name "plt" ;;
  _ <- modcall plt "ylabel" [VStr "Latitude"] [] ;;
  plt <- name "plt" ;;
  r <- modcall plt "show" [] [] ;;
  echo r.

Definition cell_27 : nb unit := plot_rgb "data_reprojected".
Definition cell_29 : nb unit := plot_rgb "clipped_data".

(** Cell 31 (lines 382-386):
    [fig, ax = plt.subplots(figsize=(8, 8))]
    [data.sel(band=4).plot.imshow(ax=ax, vmin=0, vmax=0.4, cmap='gray')]
    [bounds.boundary.plot(ax=ax, color='red')]
    [plt.title('Raster with Vector Overlay')]
    [plt.show()] *)
Definition cell_31 : nb unit :=
  plt <- name "plt" ;;
  r <- modcall plt "subplots" [] [("figsize", VTuple [VInt 8; VInt 8])] ;;
  fa <- unpack2 r ;;
  assign "fig" (fst fa) ;;
  assign "ax" (snd fa) ;;
  data <- name "data" ;;
  band <- method data "sel" [] [("band", VInt 4)] ;;
  ax <- name "ax" ;;
  _ <- method band "plot.imshow" []
         [("ax", ax); ("vmin", VInt 0); ("vmax", VFloat (4 # 10));
          ("cmap", VStr "gray")] ;;
  bounds <- name "bounds" ;;
  boundary <- getattr bounds "boundary" ;;
  ax <- name "ax" ;;
  _ <- method boundary "plot" [] [("ax", ax); ("color", VStr "red")] ;;
  plt <- name "plt" ;;
  _ <- modcall plt "title" [VStr "Raster with Vector Overlay"] [] ;;
  plt <- name "plt" ;;
  r <- modcall plt "show" [] [] ;;
  echo r.

(** Cell 33 (line 407): [data.rio.to_raster('output_raster.tif')] *)
Definition cell_33 : nb unit :=
  data <- name "data" ;;
  r <- method data "rio.to_raster" [VStr "output_raster.tif"] [] ;;
  echo r.

(** Cells 35, 37, 39, 41, 43 (lines 430-510): the empty exercise cells. *)
Definition exercise_cell : nb unit := ret tt.

(** The code cells in document order. *)
Definition cells : list (nb unit) :=
  [cell_1; cell_3; cell_5; cell_7; cell_8; cell_9; cell_11; cell_12;
   cell_14; cell_16; cell_17; cell_19; cell_20; cell_22; cell_23; cell_25;
   cell_27; cell_29; cell_31; cell_33;
   exercise_cell; exercise_cell; exercise_cell; exercise_cell; exercise_cell].

(** Running all cells: each one starts in the namespace the previous one
    left; an exception ends the run. *)
Fixpoint run_cells (cs : list (nb unit)) : nb unit :=
  match cs with
  | [] => ret tt
  | c :: rest => c ;; run_cells rest
  end.

Definition notebook : prog (unit * namespace) := run_cells cells [].

(** ** Running a program against a library *)

Inductive outcome (A : Type) : Type :=
| Done (a : A)
| Failed (e : exn).

Arguments Done {A} a.
Arguments Failed {A} e.

Section Interp.

(** The library's world (open files, the objects it has built, figures, its
    global options, ...) and the way it answers an action. *)
Variable W : Type.
Variable lib : action -> W -> result * W.

(** One entry of the run's log: the action, the answer, and the world the
    library left. *)
Record event : Type := Event {
  ev_action : action;
  ev_result : result;
  ev_after : W
}.

Record run (A : Type) : Type := Run {
  out : outcome A;
  final : W;
  log : list event
}.

Arguments out {A} r.
Arguments final {A} r.
Arguments log {A} r.

(** Actions are performed one at a time, in program order; the next one is
    issued only when the previous one has been answered. *)
Fixpoint interp {A : Type} (p : prog A) (w : W) : run A :=
  match p with
  | Ret a => Run A (Done a) w []
  | Throw e => Run A (Failed e) w []
  | Act a k =>
      let rw := lib a w in
      let r := interp (k (fst rw)) (snd rw) in
      Run A (out r) (final r) (Event a (fst rw) (snd rw) :: log r)
  end.

End Interp.

Arguments Event {W} ev_action ev_result ev_after.
Arguments ev_action {W} e.
Arguments ev_result {W} e.
Arguments ev_after {W} e.
Arguments Run {W A} out final log.
Arguments out {W A} r.
Arguments final {W A} r.
Arguments log {W A} r.
Arguments interp {W} lib {A} p w.

Definition completed {W A : Type} (r : run W A) : Prop :=
  exists a, out r = Done a.

(** The namespace a completed run of the notebook ends with. *)
Definition final_ns {W : Type} (r : run W (unit * namespace)) : namespace :=
  match out r with
  | Done (_, ns) => ns
  | Failed _ => []
  end.

(** ** A small library to run the notebook against *)

(** Datasets are kept in a heap of records; a reference [VObj n] is the
    [n]-th one.  Only what the notebook can observe is simulated: the CRS a
    dataset carries.  A transform method builds a new record and touches no
    old one. *)
Module Sim.

Record dataset : Type := Dataset { ds_crs : value }.

Definition world := list dataset.

Definition deref (w : world) (o : value) : option dataset :=
  match o with
  | VObj n => nth_error w n
  | _ => None
  end.

Definition utm11n : value := VStr "EPSG:32611".

(** A new dataset, derived from the one [o] refers to. *)
Definition derive (w : world) (o : value) (f : dataset -> dataset)
  : result * list dataset :=
  match deref w o with
  | Some d => (Ok (VObj (length w)), [f d])
  | None => (Err (VStr "AttributeError"), [])
  end.

Definition first_arg (w : world) (args : list value)
  (f : dataset -> dataset) : result * list dataset :=
  match args with
  | o :: _ => derive w o f
  | [] => (Err (VStr "TypeError"), [])
  end.

(** The answer to an action, and the datasets it adds to the heap. *)
Definition step (a : action) (w : world) : result * list dataset :=
  match a with
  | ImportModule _ => (Ok VNone, [])
  | GetAttr o attr =>
      if String.eqb attr "rio.crs" then
        match deref w o with
        | Some d => (Ok (ds_crs d), [])
        | None => (Err (VStr "AttributeError"), [])
        end
      else (Ok VNone, [])
  | Invoke fn args _ =>
      if String.eqb fn "rioxarray.open_rasterio" then
        (Ok (VObj (length w)), [Dataset utm11n])
      else if String.eqb fn "rio.reproject" then
        match args with
        | o :: target :: _ => derive w o (fun _ => Dataset target)
        | _ => (Err (VStr "TypeError"), [])
        end
      else if String.eqb fn "rio.clip_box" then first_arg w args (fun d => d)
      else if String.eqb fn "rio.clip" then first_arg w args (fun d => d)
      else if String.eqb fn "sel" then first_arg w args (fun d => d)
      else if String.eqb fn "matplotlib.pyplot.subplots" then
        (Ok (VTuple [VStr "Figure"; VStr "Axes"]), [])
      else (Ok VNone, [])
  end.

Definition lib (a : action) (w : world) : result * world :=
  (fst (step a w), w ++ snd (step a w)).

End Sim.

(** A library that raises on every request. *)
Definition broken_lib (a : action) (w : unit) : result * unit :=
  (Err (VStr "OSError"), w).

Definition sim_run : run Sim.world (unit * namespace) :=
  interp Sim.lib notebook [].

(** A library that answers as [Sim.lib] does, except that the function
    [bad] raises. *)
Definition failing_at (bad : string) (a : action) (w : Sim.world)
  : result * Sim.world :=
  match a with
  | Invoke fn _ _ =>
      if String.eqb fn bad then (Err (VStr "NoDataInBounds"), w)
      else Sim.lib a w
  | _ => Sim.lib a w
  end.

(** A library that answers as [Sim.lib] does, except that the function
    [fn] answers [v]. *)
Definition answering (fn : string) (v : value) (a : action) (w : Sim.world)
  : result * Sim.world :=
  match a with
  | Invoke g _ _ =>
      if String.eqb g fn then (Ok v, w) else Sim.lib a w
  | _ => Sim.lib a w
  end.

(** ** Reading a run *)

Section Reading.

Context {W A : Type}.

(** The actions of a run in the order they were performed, their answers,
    and both together. *)
Definition actions (r : run W A) : list action := map ev_action (log r).
Definition answers (r : run W A) : list result := map ev_result (log r).
Definition calls (r : run W A) : list (action * result) :=
  map (fun e => (ev_action e, ev_result e)) (log r).

(** Every entry of a log was answered by the library in the world its
    predecessor left: no two actions are ever in progress together. *)
Fixpoint justified (lib : action -> W -> result * W) (w : W)
  (l : list (event W)) : Prop :=
  match l with
  | [] => True
  | e :: rest =>
      lib (ev_action e) w = (ev_result e, ev_after e) /\
      justified lib (ev_after e) rest
  end.

(** The world after a log that started in [w]. *)
Fixpoint world_after (w : W) (l : list (event W)) : W :=
  match l with
  | [] => w
  | e :: rest => world_after (ev_after e) rest
  end.

(** The world in which the [i]-th action of a run is performed. *)
Definition world_at (r : run W A) (w : W) (i : nat) : W :=
  world_after w (firstn i (log r)).

End Reading.

(** Where a program stands once a list of answers has been fed to it. *)
Inductive position (A : Type) : Type :=
| Returned (a : A)
| Raised (e : exn)
| Pending (a : action)
| Overrun.

Arguments Returned {A} a.
Arguments Raised {A} e.
Arguments Pending {A} a.
Arguments Overrun {A}.

Fixpoint replay {A : Type} (p : prog A) (rs : list result) : position A :=
  match p, rs with
  | Ret a, [] => Returned a
  | Throw e, [] => Raised e
  | Act a _, [] => Pending a
  | Act _ k, r :: rest => replay (k r) rest
  | _, _ :: _ => Overrun
  end.

(** The actions a program performs while it is fed a list of answers. *)
Fixpoint performed {A : Type} (p : prog A) (rs : list result) : list action :=
  match p, rs with
  | Act a k, r :: rest => a :: performed (k r) rest
  | _, _ => []
  end.

(** The calls of one function in a run. *)
Definition invocations (f : string) (cs : list (action * result))
  : list (action * result) :=
  filter (fun c => match fst c with
                   | Invoke g _ _ => String.eqb g f
                   | _ => false
                   end) cs.

(** ** The requests of the notebook *)

(** An action without its argument values. *)
Inductive request : Type :=
| RImport (module : string)
| RAttr (attr : string)
| RCall (fn : string) (keywords : list string).

Definition request_of (a : action) : request :=
  match a with
  | ImportModule m => RImport m
  | GetAttr _ attr => RAttr attr
  | Invoke fn _ kw => RCall fn (map fst kw)
  end.

(** The requests of the notebook, cell by cell. *)
Definition script : list request :=
  (* cell 3 *)
  [RImport "rioxarray"; RImport "xarray"; RImport "matplotlib.pyplot";
   RCall "xarray.set_options" ["keep_attrs"; "display_expand_data"];
   RCall "displayhook" [];
  (* cell 5 *)
   RCall "rioxarray.open_rasterio" []; RCall "displayhook" [];
  (* cells 7, 8, 9 *)
   RAttr "dims"; RCall "print" []; RCall "displayhook" [];
   RAttr "coords"; RCall "print" []; RCall "displayhook" [];
   RAttr "attrs"; RCall "print" []; RCall "displayhook" [];
  (* cells 11, 12 *)
   RAttr "rio.crs"; RCall "print" []; RCall "displayhook" [];
   RCall "rio.transform" []; RCall "print" []; RCall "displayhook" [];
  (* cell 14 *)
   RCall "rio.reproject" []; RAttr "rio.crs"; RCall "print" [];
   RCall "displayhook" [];
  (* cells 16, 17 *)
   RCall "rio.clip_box" []; RAttr "shape"; RCall "displayhook" [];
  (* cells 19, 20 *)
   RImport "geopandas"; RCall "geopandas.read_file" [];
   RAttr "geometry"; RAttr "crs"; RCall "rio.clip" [];
   RAttr "shape"; RCall "displayhook" [];
  (* cells 22, 23 *)
   RAttr "rio.crs"; RCall "rio.reproject" ["resolution"];
   RAttr "shape"; RCall "displayhook" [];
  (* cell 25 *)
   RCall "sel" ["x"; "y"]; RAttr "shape"; RCall "displayhook" [];
  (* cell 27 *)
   RCall "matplotlib.pyplot.figure" ["figsize"]; RCall "sel" ["band"];
   RCall "plot.imshow" ["vmin"; "vmax"];
   RCall "matplotlib.pyplot.title" []; RCall "matplotlib.pyplot.xlabel" [];
   RCall "matplotlib.pyplot.ylabel" []; RCall "matplotlib.pyplot.show" [];
   RCall "displayhook" [];
  (* cell 29 *)
   RCall "matplotlib.pyplot.figure" ["figsize"]; RCall "sel" ["band"];
   RCall "plot.imshow" ["vmin"; "vmax"];
   RCall "matplotlib.pyplot.title" []; RCall "matplotlib.pyplot.xlabel" [];
   RCall "matplotlib.pyplot.ylabel" []; RCall "matplotlib.pyplot.show" [];
   RCall "displayhook" [];
  (* cell 31 *)
   RCall "matplotlib.pyplot.subplots" ["figsize"]; RCall "sel" ["band"];
   RCall "plot.imshow" ["ax"; "vmin"; "vmax"; "cmap"];
   RAttr "boundary"; RCall "plot" ["ax"; "color"];
   RCall "matplotlib.pyplot.title" []; RCall "matplotlib.pyplot.show" [];
   RCall "displayhook" [];
  (* cell 33 *)
   RCall "rio.to_raster" []; RCall "displayhook" []].

(** A value that unpacks into two names: an iterable of two items. *)
Definition pair_like (v : value) : Prop :=
  exists a b, items v = Some [a; b].

(** The exception of [a, b = v] for a value that does not unpack into two
    names: [TypeError] when [v] is not iterable, [ValueError] when it has
    another number of items than two. *)
Definition unpack_failure (v : value) (x : exn) : Prop :=
  match items v with
  | None => exists m, x = TypeError m
  | Some l => length l <> 2 /\ exists m, x = ValueError m
  end.

Definition is_subplots (a : action) : Prop :=
  exists kw, a = Invoke "matplotlib.pyplot.subplots" [] kw.

(** [follows qs p]: [p] performs the requests [qs] one after the other,
    whatever values it is answered; it re-raises a library's exception as it
    is, wherever it occurs; and it raises nothing of its own, except for the
    runtime's [TypeError] or [ValueError] when the answer of [plt.subplots]
    does not unpack into two names. *)
Inductive follows {A : Type} : list request -> prog A -> Prop :=
| follows_ret (a : A) : follows [] (Ret a)
| follows_act (a : action) (k : result -> prog A) (q : request)
    (rest : list request) :
    request_of a = q ->
    (forall e, k (Err e) = Throw (LibraryError e)) ->
    (forall v, follows rest (k (Ok v))) ->
    follows (q :: rest) (Act a k)
| follows_unpack (a : action) (k : result -> prog A) (q : request)
    (rest : list request) :
    request_of a = q ->
    is_subplots a ->
    (forall e, k (Err e) = Throw (LibraryError e)) ->
    (forall v, pair_like v -> follows rest (k (Ok v))) ->
    (forall v, ~ pair_like v ->
               exists x, k (Ok v) = Throw x /\ unpack_failure v x) ->
    follows (q :: rest) (Act a k).

(** ** External interfaces *)

Definition mem (x : string) (l : list string) : bool :=
  existsb (String.eqb x) l.

(** What a request does outside the Python process.  [InProcess] is
    module loading and computation on objects in memory. *)
Inductive interface : Type :=
| RemoteRasterRead
| RemoteVectorRead
| LocalRasterWrite
| PlotRendering
| TextOutput
| InProcess
| Unclassified.

Definition plotting_functions : list string :=
  ["plot.imshow"; "plot"; "matplotlib.pyplot.figure";
   "matplotlib.pyplot.subplots"; "matplotlib.pyplot.title";
   "matplotlib.pyplot.xlabel"; "matplotlib.pyplot.ylabel";
   "matplotlib.pyplot.show"].

Definition text_functions : list string := ["print"; "displayhook"].

Definition in_memory_functions : list string :=
  ["xarray.set_options"; "rio.transform"; "rio.reproject"; "rio.clip_box";
   "rio.clip"; "sel"].

Definition interface_of (q : request) : interface :=
  match q with
  | RImport _ => InProcess
  | RAttr _ => InProcess
  | RCall fn _ =>
      if String.eqb fn "rioxarray.open_rasterio" then RemoteRasterRead
      else if String.eqb fn "geopandas.read_file" then RemoteVectorRead
      else if String.eqb fn "rio.to_raster" then LocalRasterWrite
      else if mem fn plotting_functions then PlotRendering
      else if mem fn text_functions then TextOutput
      else if mem fn in_memory_functions then InProcess
      else Unclassified
  end.

Definition interface_eqb (i j : interface) : bool :=
  match i, j with
  | RemoteRasterRead, RemoteRasterRead
  | RemoteVectorRead, RemoteVectorRead
  | LocalRasterWrite, LocalRasterWrite
  | PlotRendering, PlotRendering
  | TextOutput, TextOutput
  | InProcess, InProcess
  | Unclassified, Unclassified => true
  | _, _ => false
  end.

(** The actions of a run that go through interface [i]. *)
Definition actions_on (i : interface) (l : list action) : list action :=
  filter (fun a => interface_eqb (interface_of (request_of a)) i) l.

(** The four interfaces the specification lists. *)
Definition stated_interfaces : list interface :=
  [RemoteRasterRead; RemoteVectorRead; LocalRasterWrite; PlotRendering].

Definition is_url (s : string) : bool := String.prefix "https://" s.

(** ** Stages of the tutorial *)

Inductive stage : Type := Load | Inspect | Transform | Visualize | Export.

Definition stage_of (q : request) : option stage :=
  match q with
  | RImport _ => None
  | RAttr a =>
      if mem a ["dims"; "coords"; "attrs"; "rio.crs"] then Some Inspect
      else None
  | RCall fn _ =>
      if String.eqb fn "rioxarray.open_rasterio" then Some Load
      else if String.eqb fn "rio.transform" then Some Inspect
      else if mem fn ["rio.reproject"; "rio.clip_box"; "rio.clip"]
      then Some Transform
      else if mem fn plotting_functions then Some Visualize
      else if String.eqb fn "rio.to_raster" then Some Export
      else None
  end.

Definition stage_eqb (s t : stage) : bool :=
  match s, t with
  | Load, Load | Inspect, Inspect | Transform, Transform
  | Visualize, Visualize | Export, Export => true
  | _, _ => false
  end.

Definition at_stage (s : stage) (q : request) : bool :=
  match stage_of q with
  | Some t => stage_eqb t s
  | None => false
  end.

(** Every request of stage [s] comes before every request of stage [t]. *)
Definition all_before (s t : stage) (qs : list request) : Prop :=
  forall i j p q,
    nth_error qs i = Some p -> nth_error qs j = Some q ->
    at_stage s p = true -> at_stage t q = true -> i < j.

(** The five pieces of metadata that cells 7 to 12 read and print. *)
Definition metadata_reads : list request :=
  [RAttr "dims"; RAttr "coords"; RAttr "attrs"; RAttr "rio.crs";
   RCall "rio.transform" []].

(** By the time a transform is requested, each piece of metadata has been
    read. *)
Definition inspected_before_transforming (qs : list request) : Prop :=
  forall j q,
    nth_error qs j = Some q -> at_stage Transform q = true ->
    forall m, In m metadata_reads ->
      exists i, i < j /\ nth_error qs i = Some m.

(** A checker for [all_before]: no [P] at or after a [Q]. *)
Fixpoint none_after (P Q : request -> bool) (l : list request) : bool :=
  match l with
  | [] => true
  | x :: rest =>
      (if Q x then negb (P x) && forallb (fun y => negb (P y)) rest else true)
      && none_after P Q rest
  end.

(** ** Concurrency *)

Definition concurrency_modules : list string :=
  ["threading"; "_thread"; "multiprocessing"; "concurrent.futures";
   "asyncio"; "subprocess"; "sched"; "signal"].

(** [name] is the module [m] or something inside it. *)
Definition within (m name : string) : bool :=
  String.eqb name m || String.prefix (m ++ ".") name.

Definition concurrent (q : request) : bool :=
  match q with
  | RImport m => existsb (fun c => within c m) concurrency_modules
  | RAttr _ => false
  | RCall fn _ => existsb (fun c => within c fn) concurrency_modules
  end.

Definition imports (l : list action) : list string :=
  flat_map (fun a => match a with ImportModule m => [m] | _ => [] end) l.

(** ** What the notebook relies on in the libraries *)

(** rioxarray, xarray and geopandas are not part of this repository.  What
    their methods do to the datasets they manage is stated here as
    properties a library may have; a theorem that needs one takes it as a
    hypothesis, and [Sim.lib] has them all. *)
Section Contract.

Context {W D : Type}.
Variable lib : action -> W -> result * W.

(** What the library holds for a dataset reference in a world: its
    contents, or nothing when the reference is to no dataset there. *)
Variable peek : W -> value -> option D.

(** The CRS recorded in a dataset, and the library's reading of a CRS given
    by the user (an EPSG string, a CRS object, ...). *)
Variable crs : D -> value.
Variable crs_from_user_input : value -> value.

(** Modelled from the spec: the transform methods of rioxarray, which no
    file of this repository defines, leave their input as it is.  An action
    keeps the datasets when it writes to none that exists. *)
Definition keeps_datasets (a : action) : Prop :=
  forall w o d, peek w o = Some d -> peek (snd (lib a w)) o = Some d.

(** Modelled from the spec: the transform methods of rioxarray return a
    new dataset object.  An action builds a dataset when its answer is a
    dataset that did not exist before. *)
Definition builds_dataset (a : action) : Prop :=
  forall w v, fst (lib a w) = Ok v ->
    peek w v = None /\ peek (snd (lib a w)) v <> None.

(** The library writes to no existing dataset, whatever the notebook asks
    of it. *)
Definition non_mutating : Prop :=
  forall a, In (request_of a) script -> keeps_datasets a.

Definition producers : list request :=
  [RCall "rioxarray.open_rasterio" []; RCall "rio.reproject" [];
   RCall "rio.clip_box" []; RCall "rio.clip" [];
   RCall "rio.reproject" ["resolution"]].

(** Loading and the transform methods answer with a new dataset. *)
Definition transforms_build : Prop :=
  forall a, In (request_of a) producers -> builds_dataset a.

(** Modelled from the spec: what [rio.reproject] returns.  The method is
    rioxarray's and no file of this repository defines it; the property is
    the postcondition the notebook's comment and its following [print]
    rely on: the answer is a dataset in the CRS that was asked for. *)
Definition reproject_sets_crs : Prop :=
  forall o target kw w v,
    fst (lib (Invoke "rio.reproject" [o; target] kw) w) = Ok v ->
    exists d, peek (snd (lib (Invoke "rio.reproject" [o; target] kw) w)) v
              = Some d /\
              crs d = crs_from_user_input target.

(** Modelled from the spec: the accessor [rio.crs] of rioxarray reports
    the CRS recorded in the dataset. *)
Definition crs_accessor_sound : Prop :=
  forall o w c,
    fst (lib (GetAttr o "rio.crs") w) = Ok c ->
    exists d, peek w o = Some d /\ crs d = c.

(** Modelled from the spec: a CRS object that a dataset records is read
    back by rioxarray as itself. *)
Definition crs_is_canonical : Prop :=
  forall w o d, peek w o = Some d -> crs_from_user_input (crs d) = crs d.

End Contract.

(** The dataset [o] was built during the run, and holds after every later
    action, and at the end, what it held when it was built. *)
Definition unchanged_since_built {W D A : Type}
  (peek : W -> value -> option D) (r : run W A) (o : value) : Prop :=
  exists pre ev post d,
    log r = pre ++ ev :: post /\
    ev_result ev = Ok o /\
    In (request_of (ev_action ev)) producers /\
    peek (ev_after ev) o = Some d /\
    (forall ev', In ev' post -> peek (ev_after ev') o = Some d) /\
    peek (final r) o = Some d.

(** ** Selection by a label slice *)

(** [DataArray.sel] with a slice of labels.  The method is xarray's and
    resolves the slice through the pandas index of the coordinate; neither
    is a file of this repository.  The definitions of this module follow
    that algorithm for an index of unique floating-point labels,
    which are compared as rationals: [slice_locs] takes the left bound of
    the start label and the right bound of the stop label, a bound being
    the position of the label when the index holds it and else the place
    where it would be inserted, found by [searchsorted] on the index when
    it is ascending and on its reverse when it is descending; the rows
    selected are the positional slice between the two bounds. *)
Module LabelSlice.

Inductive side : Type := Left | Right.

Definition flip (s : side) : side :=
  match s with Left => Right | Right => Left end.

(** Monotonicity as the index reports it: an index of one label, or of
    none, is both increasing and decreasing. *)
Fixpoint is_monotonic_increasing (ys : list Q) : bool :=
  match ys with
  | a :: rest =>
      match rest with
      | b :: _ => Qle_bool a b && is_monotonic_increasing rest
      | [] => true
      end
  | [] => true
  end.

Fixpoint is_monotonic_decreasing (ys : list Q) : bool :=
  match ys with
  | a :: rest =>
      match rest with
      | b :: _ => Qle_bool b a && is_monotonic_decreasing rest
      | [] => true
      end
  | [] => true
  end.

(** Whether [y] sorts before the insertion point of [v]: strictly below
    [v] on the left side, below or equal on the right side. *)
Definition sorts_before (s : side) (v y : Q) : bool :=
  match s with
  | Left => negb (Qle_bool v y)
  | Right => Qle_bool y v
  end.

(** The insertion point of [v] in an ascending array. *)
Fixpoint searchsorted (a : list Q) (v : Q) (s : side) : nat :=
  match a with
  | [] => 0
  | y :: rest => if sorts_before s v y then S (searchsorted rest v s) else 0
  end.

(** The position of a label the index holds. *)
Fixpoint get_loc (ys : list Q) (label : Q) : option nat :=
  match ys with
  | [] => None
  | y :: rest =>
      if Qeq_bool y label then Some 0 else option_map S (get_loc rest label)
  end.

(** The increasing case is tried first; the decreasing case searches the
    reversed index on the other side and counts back from the end. *)
Definition searchsorted_monotonic (ys : list Q) (label : Q) (s : side)
  : option nat :=
  if is_monotonic_increasing ys then Some (searchsorted ys label s)
  else if is_monotonic_decreasing ys then
    Some (length ys - searchsorted (rev ys) label (flip s))
  else None.

Definition get_slice_bound (ys : list Q) (label : Q) (s : side) : option nat :=
  match get_loc ys label with
  | Some i => Some (match s with Left => i | Right => S i end)
  | None => searchsorted_monotonic ys label s
  end.

Definition slice_locs (ys : list Q) (start stop : Q) : option (nat * nat) :=
  match get_slice_bound ys start Left, get_slice_bound ys stop Right with
  | Some i, Some j => Some (i, j)
  | _, _ => None
  end.

(** The positional slice from [i] to [j]: empty when [j <= i]. *)
Definition islice {A : Type} (l : list A) (i j : nat) : list A :=
  firstn (j - i) (skipn i l).

(** Modelled from the spec: [DataArray.sel] with a label slice, which is
    xarray and pandas code absent from this repository.  The rows that a
    selection with the slice from [start] to [stop] keeps, given the
    coordinate [ys]; [None] is the [KeyError] of an unsorted index. *)
Definition sel_slice (ys : list Q) (start stop : Q) : option (list Q) :=
  match slice_locs ys start stop with
  | Some (i, j) => Some (islice ys i j)
  | None => None
  end.

Definition in_range (lo hi y : Q) : bool := Qle_bool lo y && Qle_bool y hi.

Fixpoint strictly_decreasing (ys : list Q) : Prop :=
  match ys with
  | a :: rest =>
      match rest with
      | b :: _ => (b < a)%Q /\ strictly_decreasing rest
      | [] => True
      end
  | [] => True
  end.

Definition above (v y : Q) : bool := negb (Qle_bool y v).
Definition at_least (v y : Q) : bool := Qle_bool v y.
Definition count (f : Q -> bool) (l : list Q) : nat := length (filter f l).

End LabelSlice.

(** ** The names a cell binds and the names it needs *)

(** The cells share one namespace, so what a cell asks of the cells run
    before it is the set of names it reads, and what it leaves to the cells
    run after it is the set of names it binds.  The three judgements below
    say so for a computation started in any namespace, against any
    library. *)

(** [m] only adds bindings: the namespace it ends with is the one it
    started from under new bindings for the names [ws], bound in that
    order. *)
Definition writes {A : Type} (m : nb A) (ws : list string) : Prop :=
  forall (W : Type) (lib : action -> W -> result * W) (w : W)
         (ns : namespace) (a : A) (ns' : namespace),
    out (interp lib (m ns) w) = Done (a, ns') ->
    exists new, ns' = new ++ ns /\ map fst new = rev ws.

Definition bound (x : string) (ns : namespace) : Prop := lookup x ns <> None.

Definition no_name_error {W A : Type} (r : run W A) : Prop :=
  forall n, out r <> Failed (NameError n).

(** [m] reads no name of the starting namespace outside [B]. *)
Definition safe {A : Type} (B : list string) (m : nb A) : Prop :=
  forall (W : Type) (lib : action -> W -> result * W) (w : W)
         (ns : namespace),
    (forall x, In x B -> bound x ns) ->
    no_name_error (interp lib (m ns) w).

(** [m] cannot complete where [x] is unbound. *)
Definition needs {A : Type} (x : string) (m : nb A) : Prop :=
  forall (W : Type) (lib : action -> W -> result * W) (w : W)
         (ns : namespace),
    lookup x ns = None -> ~ completed (interp lib (m ns) w).

(** A cell with the global names it reads before binding them itself, and
    the names it binds, in the order of its statements. *)
Record cell_names : Type := Names {
  cell_body : nb unit;
  cell_reads : list string;
  cell_binds : list string
}.

Definition cell_table : list cell_names :=
  [ Names cell_1 [] [];
    Names cell_3 [] ["rioxarray"; "xr"; "plt"];
    Names cell_5 ["rioxarray"] ["url"; "data"];
    Names cell_7 ["data"] [];
    Names cell_8 ["data"] [];
    Names cell_9 ["data"] [];
    Names cell_11 ["data"] [];
    Names cell_12 ["data"] [];
    Names cell_14 ["data"] ["data_reprojected"];
    Names cell_16 ["data_reprojected"] ["bbox"; "clipped_data"];
    Names cell_17 ["clipped_data"] [];
    Names cell_19 ["data"] ["gpd"; "geojson_path"; "bounds"; "clipped_data2"];
    Names cell_20 ["clipped_data2"] [];
    Names cell_22 ["data"] ["resampled_data"];
    Names cell_23 ["resampled_data"] [];
    Names cell_25 ["data_reprojected"]
      ["min_x"; "max_x"; "min_y"; "max_y"; "subset"];
    Names cell_27 ["plt"; "data_reprojected"] [];
    Names cell_29 ["plt"; "clipped_data"] [];
    Names cell_31 ["plt"; "data"; "bounds"] ["fig"; "ax"];
    Names cell_33 ["data"] [];
    Names exercise_cell [] []; Names exercise_cell [] [];
    Names exercise_cell [] []; Names exercise_cell [] [];
    Names exercise_cell [] [] ].

(** Whether every cell of a sequence reads only names that the cells before
    it have bound, [B] being the names bound at the start. *)
Fixpoint well_ordered (B : list string) (cs : list cell_names) : bool :=
  match cs with
  | [] => true
  | c :: rest =>
      forallb (fun x => mem x B) (cell_reads c) &&
      well_ordered (cell_binds c ++ B) rest
  end.

(** The list without its [k]-th element. *)
Definition drop {A : Type} (k : nat) (l : list A) : list A :=
  firstn k l ++ skipn (S k) l.

(** The positions in [cells] of cells 3, 5, 14, 16, 19 and 22. *)
Definition required : list nat := [1; 2; 8; 9; 11; 13].

(** ** What a completed run shows *)

(** The read [read] is answered with a value, [print] is called on that
    value next, and the display hook on the answer of [print] after that:
    the three actions of a cell [print(o.a)]. *)
Definition then_printed (cs : list (action * result)) (read : action) : Prop :=
  exists i v none shown,
    nth_error cs i = Some (read, Ok v) /\
    nth_error cs (S i) = Some (Invoke "print" [v] [], Ok none) /\
    nth_error cs (S (S i)) = Some (Invoke "displayhook" [none] [], Ok shown).

(** The shape of [o] is read and handed to the display hook next: the two
    actions of a cell [o.shape]. *)
Definition shape_shown (cs : list (action * result)) (o : value) : Prop :=
  exists i s shown,
    nth_error cs i = Some (GetAttr o "shape", Ok s) /\
    nth_error cs (S i) = Some (Invoke "displayhook" [s] [], Ok shown).

Definition attribute_reads (a : string) (cs : list (action * result))
  : list (action * result) :=
  filter (fun c => match fst c with
                   | GetAttr _ b => String.eqb b a
                   | _ => false
                   end) cs.

(** ** Selection by an ascending slice *)

Fixpoint strictly_increasing (xs : list Q) : Prop :=
  match xs with
  | a :: rest =>
      match rest with
      | b :: _ => (a < b)%Q /\ strictly_increasing rest
      | [] => True
      end
  | [] => True
  end.

(** ** Tactics *)

(** One step along the program: the next action, its exception re-raised,
    its value passed on. *)
Ltac walk :=
  refine (follows_act _ _ _ _ _ (fun e => eq_refl) (fun v => _));
  [ reflexivity | ].

(** Replace one side of an equation by its value. *)
Ltac vm_rhs H :=
  match type of H with
  | ?l = ?r =>
      let r' := eval vm_compute in r in
      replace r with r' in H by (vm_compute; reflexivity)
  end.

Ltac vm_lhs H :=
  match type of H with
  | ?l = ?r =>
      let l' := eval vm_compute in l in
      replace l with l' in H by (vm_compute; reflexivity)
  end.

(** Name the sixty-nine answers of a completed run. *)
Ltac name_answers vs Hlen :=
  do 69 (destruct vs as [ | ? vs]; [ discriminate Hlen | ]);
  destruct vs; [ clear Hlen | discriminate Hlen ].

Ltac action_at H := rewrite H; reflexivity.

(** * Properties *)

(** ** A run is a replay of the library's answers *)

Section Runs.

Context {W : Type} (lib : action -> W -> result * W).

Lemma interp_replay {A : Type} (p : prog A) (w : W) :
  replay p (answers (interp lib p w)) =
  match out (interp lib p w) with
  | Done a => Returned a
  | Failed e => Raised e
  end.
Proof.
  revert w; induction p as [a | e | a k IH]; intro w; cbn; try reflexivity.
  apply IH.
Qed.

Lemma interp_performed {A : Type} (p : prog A) (w : W) :
  actions (interp lib p w) = performed p (answers (interp lib p w)).
Proof.
  revert w; induction p as [a | e | a k IH]; intro w; cbn; try reflexivity.
  f_equal. apply IH.
Qed.

Lemma interp_justified {A : Type} (p : prog A) (w : W) :
  justified lib w (log (interp lib p w)).
Proof.
  revert w; induction p as [a | e | a k IH]; intro w; cbn; try exact I.
  split; [ apply surjective_pairing | apply IH ].
Qed.

Lemma interp_final {A : Type} (p : prog A) (w : W) :
  final (interp lib p w) = world_after w (log (interp lib p w)).
Proof.
  revert w; induction p as [a | e | a k IH]; intro w; cbn; try reflexivity.
  apply IH.
Qed.

End Runs.

Lemma calls_combine {W A : Type} (r : run W A) :
  calls r = combine (actions r) (answers r).
Proof.
  unfold calls, actions, answers.
  induction (log r) as [ | e l IH]; cbn; [ reflexivity | now rewrite IH ].
Qed.

Lemma nth_error_firstn_some {A : Type} (l : list A) (n i : nat) (x : A) :
  nth_error (firstn n l) i = Some x -> nth_error l i = Some x.
Proof.
  revert n i; induction l as [ | y l IH]; intros [ | n] [ | i]; cbn;
    try discriminate; auto.
  apply IH.
Qed.

Lemma in_skipn_firstn {A : Type} (x : A) (i j : nat) (l : list A) :
  In x (skipn i (firstn j l)) -> In x l.
Proof.
  intro H. rewrite <- (firstn_skipn j l). apply in_or_app. left.
  rewrite <- (firstn_skipn i (firstn j l)). apply in_or_app. right. exact H.
Qed.

(** ** The notebook is a straight line through its script *)

Lemma pair_like_dec (v : value) : pair_like v \/ ~ pair_like v.
Proof.
  unfold pair_like.
  destruct (items v) as [[ | a [ | b [ | c l]]] | ];
    try (right; intros [? [? E]]; discriminate E).
  left. exists a, b. reflexivity.
Qed.

(** The values that unpack into two names: a tuple or a list of two
    elements, or a string of two characters. *)
Lemma pair_like_cases (v a b : value) :
  items v = Some [a; b] ->
  v = VTuple [a; b] \/ v = VList [a; b] \/
  exists c1 c2,
    v = VStr (String c1 (String c2 EmptyString)) /\
    a = VStr (String c1 EmptyString) /\ b = VStr (String c2 EmptyString).
Proof.
  destruct v as [ | | | | s | l | l | | | ]; cbn; try discriminate.
  - destruct s as [ | c1 [ | c2 [ | c3 s]]]; cbn; try discriminate.
    intro E. injection E as <- <-. right. right. exists c1, c2. auto.
  - intro E. injection E as ->. right. now left.
  - intro E. injection E as ->. now left.
Qed.

Lemma notebook_follows_script : follows script notebook.
Proof.
  vm_compute.
  do 59 walk.
  refine (follows_unpack _ _ _ _ _ _ (fun e => eq_refl) _ _).
  - reflexivity.
  - eexists; reflexivity.
  - intros ans [a [b E]].
    destruct (pair_like_cases _ _ _ E)
      as [-> | [-> | (c1 & c2 & -> & -> & ->)]];
      do 9 walk; apply follows_ret.
  - intros ans H.
    destruct ans as [ | | | | s | l | l | | | ];
      try (eexists; split; [ reflexivity | cbn; eexists; reflexivity ]).
    + destruct s as [ | c1 [ | c2 [ | c3 s ] ] ];
        try (eexists; split;
             [ reflexivity
             | cbn; split; [ discriminate | eexists; reflexivity ] ]).
      exfalso; apply H; eexists _, _; reflexivity.
    + destruct l as [ | a [ | b [ | c l ] ] ];
        try (eexists; split;
             [ reflexivity
             | cbn; split; [ discriminate | eexists; reflexivity ] ]).
      exfalso; apply H; exists a, b; reflexivity.
    + destruct l as [ | a [ | b [ | c l ] ] ];
        try (eexists; split;
             [ reflexivity
             | cbn; split; [ discriminate | eexists; reflexivity ] ]).
      exfalso; apply H; exists a, b; reflexivity.
Qed.

Section FollowsFacts.

Context {W : Type} (lib : action -> W -> result * W).

Lemma follows_requests {A : Type} (qs : list request) (p : prog A) :
  follows qs p ->
  forall w,
    map request_of (actions (interp lib p w)) =
    firstn (length (log (interp lib p w))) qs.
Proof.
  induction 1 as [a | a k q rest Hq Herr Hok IH
                    | a k q rest Hq Hsub Herr Hok IH Hbad]; intro w.
  - reflexivity.
  - cbn. rewrite Hq. f_equal.
    destruct (fst (lib a w)) as [v | e].
    + apply IH.
    + rewrite Herr. reflexivity.
  - cbn. rewrite Hq. f_equal.
    destruct (fst (lib a w)) as [v | e].
    + destruct (pair_like_dec v) as [Hv | Hv].
      * apply IH, Hv.
      * destruct (Hbad v Hv) as [x [-> _]]. reflexivity.
    + rewrite Herr. reflexivity.
Qed.

Lemma follows_completed {A : Type} (qs : list request) (p : prog A) :
  follows qs p ->
  forall w a, out (interp lib p w) = Done a ->
    exists vs, answers (interp lib p w) = map Ok vs /\ length vs = length qs.
Proof.
  induction 1 as [a | a k q rest Hq Herr Hok IH
                    | a k q rest Hq Hsub Herr Hok IH Hbad]; intros w r Hout.
  - exists []. split; reflexivity.
  - cbn in Hout |- *.
    destruct (fst (lib a w)) as [v | e].
    + destruct (IH v _ _ Hout) as [vs [E L]].
      exists (v :: vs). unfold answers in *. cbn. rewrite E, L.
      split; reflexivity.
    + rewrite Herr in Hout. discriminate Hout.
  - cbn in Hout |- *.
    destruct (fst (lib a w)) as [v | e].
    + destruct (pair_like_dec v) as [Hv | Hv].
      * destruct (IH v Hv _ _ Hout) as [vs [E L]].
        exists (v :: vs). unfold answers in *. cbn. rewrite E, L.
        split; reflexivity.
      * destruct (Hbad v Hv) as [x [Hm _]]. rewrite Hm in Hout.
        discriminate Hout.
    + rewrite Herr in Hout. discriminate Hout.
Qed.

(** An exception of the library ends the run, and is its outcome. *)
Lemma follows_errors {A : Type} (qs : list request) (p : prog A) :
  follows qs p ->
  forall w pre ev post e,
    log (interp lib p w) = pre ++ ev :: post ->
    ev_result ev = Err e ->
    post = [] /\ out (interp lib p w) = Failed (LibraryError e).
Proof.
  induction 1 as [a | a k q rest Hq Herr Hok IH
                    | a k q rest Hq Hsub Herr Hok IH Hbad];
    intros w pre ev post e Hlog Hev.
  - destruct pre; discriminate Hlog.
  - cbn in Hlog |- *. destruct pre as [ | ev0 pre]; cbn in Hlog.
    + injection Hlog as Hev0 Hpost. subst ev. cbn in Hev.
      rewrite Hev in *. rewrite Herr in *. cbn in *. auto.
    + injection Hlog as Hev0 Hpost.
      destruct (fst (lib a w)) as [v | e0].
      * eapply IH; eauto.
      * rewrite Herr in Hpost. destruct pre; discriminate Hpost.
  - cbn in Hlog |- *. destruct pre as [ | ev0 pre]; cbn in Hlog.
    + injection Hlog as Hev0 Hpost. subst ev. cbn in Hev.
      rewrite Hev in *. rewrite Herr in *. cbn in *. auto.
    + injection Hlog as Hev0 Hpost.
      destruct (fst (lib a w)) as [v | e0].
      * destruct (pair_like_dec v) as [Hv | Hv].
        -- eapply IH; eauto.
        -- destruct (Hbad v Hv) as [x [Hm _]]. rewrite Hm in Hpost.
           destruct pre; discriminate Hpost.
      * rewrite Herr in Hpost. destruct pre; discriminate Hpost.
Qed.

(** The only ways a run can fail. *)
Lemma follows_failed {A : Type} (qs : list request) (p : prog A) :
  follows qs p ->
  forall w x, out (interp lib p w) = Failed x ->
    exists pre ev, log (interp lib p w) = pre ++ [ev] /\
      ((exists e, ev_result ev = Err e /\ x = LibraryError e) \/
       (exists v, is_subplots (ev_action ev) /\ ev_result ev = Ok v /\
                  ~ pair_like v /\ unpack_failure v x)).
Proof.
  induction 1 as [a | a k q rest Hq Herr Hok IH
                    | a k q rest Hq Hsub Herr Hok IH Hbad];
    intros w x Hout.
  - discriminate Hout.
  - cbn in Hout |- *.
    destruct (lib a w) as [[v | e] w'] eqn:E; cbn in *.
    + destruct (IH v _ _ Hout) as [pre [ev [Hl Hc]]].
      exists (Event a (Ok v) w' :: pre), ev. rewrite Hl.
      split; [ reflexivity | exact Hc ].
    + rewrite Herr in *. cbn in *. injection Hout as <-.
      exists [], (Event a (Err e) w').
      split; [ reflexivity | left; exists e; split; reflexivity ].
  - cbn in Hout |- *.
    destruct (lib a w) as [[v | e] w'] eqn:E; cbn in *.
    + destruct (pair_like_dec v) as [Hv | Hv].
      * destruct (IH v Hv _ _ Hout) as [pre [ev [Hl Hc]]].
        exists (Event a (Ok v) w' :: pre), ev. rewrite Hl.
        split; [ reflexivity | exact Hc ].
      * destruct (Hbad v Hv) as [y [Hm Hy]]. rewrite Hm in *. cbn in *.
        injection Hout as <-.
        exists [], (Event a (Ok v) w'). split; [ reflexivity | right ].
        exists v. repeat split; auto.
    + rewrite Herr in *. cbn in *. injection Hout as <-.
      exists [], (Event a (Err e) w').
      split; [ reflexivity | left; exists e; split; reflexivity ].
Qed.

End FollowsFacts.

Section NotebookRuns.

Context {W : Type} (lib : action -> W -> result * W) (w : W).

Lemma requests_prefix :
  map request_of (actions (interp lib notebook w)) =
  firstn (length (log (interp lib notebook w))) script.
Proof. apply follows_requests, notebook_follows_script. Qed.

Lemma request_at (i : nat) (q : request) :
  nth_error (map request_of (actions (interp lib notebook w))) i = Some q ->
  nth_error script i = Some q.
Proof. rewrite requests_prefix. apply nth_error_firstn_some. Qed.

Lemma requests_in_script (a : action) :
  In a (actions (interp lib notebook w)) -> In (request_of a) script.
Proof.
  intro H. apply (in_map request_of) in H.
  apply In_nth_error in H as [i H].
  eapply nth_error_In, request_at, H.
Qed.

(** A completed run has issued every request of the script. *)
Lemma completed_requests :
  completed (interp lib notebook w) ->
  map request_of (actions (interp lib notebook w)) = script.
Proof.
  intros [a Ha]. rewrite requests_prefix.
  destruct (follows_completed lib _ _ notebook_follows_script w a Ha)
    as [vs [E L]].
  apply (f_equal (@length _)) in E. unfold answers in E.
  rewrite !length_map in E. rewrite E, L. apply firstn_all.
Qed.

(** A completed run: sixty-nine answers, all values, the one of
    [plt.subplots] a pair; its actions and its final namespace are what the
    program computes from them. *)
Lemma notebook_completed :
  completed (interp lib notebook w) ->
  exists vs,
    length vs = 69 /\
    pair_like (nth 59 vs VNone) /\
    answers (interp lib notebook w) = map Ok vs /\
    actions (interp lib notebook w) = performed notebook (map Ok vs) /\
    replay notebook (map Ok vs) = Returned (tt, final_ns (interp lib notebook w)).
Proof.
  intros [[[] ns] Hout].
  destruct (follows_completed lib _ _ notebook_follows_script w _ Hout)
    as [vs [Hans Hlen]].
  pose proof (interp_performed lib notebook w) as Hact.
  pose proof (interp_replay lib notebook w) as Hrep.
  unfold final_ns. rewrite Hout in *. rewrite Hans in *.
  exists vs. repeat split; auto.
  clear Hact Hans Hout. change (length script) with 69 in Hlen.
  destruct (pair_like_dec (nth 59 vs VNone)) as [ | Hbad];
    [ assumption | exfalso ].
  name_answers vs Hlen.
  cbn [nth] in Hbad. vm_compute in Hrep.
  match type of Hbad with
  | ~ pair_like ?x => destruct x as [ | | | | s | l | l | | | ]
  end; try discriminate Hrep.
  - destruct s as [ | c1 [ | c2 [ | c3 s ] ] ];
      try (vm_compute in Hrep; discriminate Hrep).
    apply Hbad; eexists _, _; reflexivity.
  - destruct l as [ | a [ | b [ | c l ] ] ]; try discriminate Hrep.
    apply Hbad; exists a, b; reflexivity.
  - destruct l as [ | a [ | b [ | c l ] ] ]; try discriminate Hrep.
    apply Hbad; exists a, b; reflexivity.
Qed.

End NotebookRuns.

(** A completed run, opened up: its answers get names, the answer of
    [plt.subplots] one of the three shapes that unpack into two names, and
    its actions, answers and final namespace are computed from them. *)
Ltac open_run lib w Hc r Hr vs Hact Hans Hns :=
  let Hlen := fresh "Hlen" in
  let Hpair := fresh "Hpair" in
  let fig := fresh "fig" in
  let ax := fresh "ax" in
  let c1 := fresh "c" in
  let c2 := fresh "c" in
  let E := fresh "E" in
  let Efig := fresh "E" in
  let Eax := fresh "E" in
  destruct (notebook_completed lib w Hc)
    as (vs & Hlen & Hpair & Hans & Hact & Hns);
  remember (interp lib notebook w) as r eqn:Hr;
  name_answers vs Hlen;
  destruct Hpair as (fig & ax & E); cbn [nth] in E;
  apply pair_like_cases in E;
  destruct E as [E | [E | (c1 & c2 & E & Efig & Eax)]];
  [ | | subst fig ax ];
  match type of E with ?x = _ => subst x end;
  vm_rhs Hact; vm_rhs Hans;
  vm_lhs Hns; injection Hns as Hns.

Lemma sim_completed : completed sim_run.
Proof. eexists. vm_compute. reflexivity. Qed.

(** ** Exceptions (claim C2) *)

(** Claim C2.  The notebook catches nothing and recovers from nothing:
    whenever a library answers an action with an exception, in any run
    against any library, that action is the last one performed and the
    exception, unchanged, is the outcome of the run.  Nor does the notebook
    check anything itself: a run that fails ends on its last action, either
    with the exception the library raised there, or, when the answer of
    [plt.subplots] does not unpack into [fig, ax], with the exception of
    the runtime for that assignment: [TypeError] for an answer that is not
    iterable, [ValueError] for an iterable of another length than two. *)
Theorem errors_propagate {W : Type} (lib : action -> W -> result * W) (w : W) :
  let r := interp lib notebook w in
  (forall pre ev post e,
      log r = pre ++ ev :: post -> ev_result ev = Err e ->
      post = [] /\ out r = Failed (LibraryError e)) /\
  (forall x, out r = Failed x ->
      exists pre ev, log r = pre ++ [ev] /\
        ((exists e, ev_result ev = Err e /\ x = LibraryError e) \/
         (exists v, is_subplots (ev_action ev) /\ ev_result ev = Ok v /\
                    ~ pair_like v /\ unpack_failure v x))).
Proof.
  intro r. split.
  - apply follows_errors with (qs := script), notebook_follows_script.
  - apply follows_failed with (qs := script), notebook_follows_script.
Qed.

(** When [rio.clip] raises, the run stops at that thirty-fourth action with
    its exception. *)
Lemma errors_propagate_witness :
  let r := interp (failing_at "rio.clip") notebook [] in
  skipn 34 (log r) = [] /\
  out r = Failed (LibraryError (VStr "NoDataInBounds")).
Proof.
  intro r.
  pose (ev := nth 33 (log r) (Event (ImportModule "") (Ok VNone) [])).
  apply (proj1 (errors_propagate (failing_at "rio.clip") [])
           (firstn 33 (log r)) ev (skipn 34 (log r)) (VStr "NoDataInBounds"));
    vm_compute; reflexivity.
Defined.

(** What [fig, ax = plt.subplots(...)] makes of an answer: three items or
    one raise [ValueError], [None] raises [TypeError], and a string of two
    characters unpacks as a pair does. *)
Example unpacking_outcomes :
  out (interp (answering "matplotlib.pyplot.subplots"
                 (VTuple [VNone; VNone; VNone])) notebook [])
  = Failed (ValueError "too many values to unpack (expected 2)") /\
  out (interp (answering "matplotlib.pyplot.subplots" (VList [VNone]))
         notebook [])
  = Failed (ValueError "not enough values to unpack (expected 2)") /\
  out (interp (answering "matplotlib.pyplot.subplots" VNone) notebook [])
  = Failed (TypeError "cannot unpack non-iterable object") /\
  completed (interp (answering "matplotlib.pyplot.subplots" (VStr "ab"))
               notebook []).
Proof.
  repeat split; try (vm_compute; reflexivity).
  eexists. vm_compute. reflexivity.
Qed.

(** The property is one of the notebook, not of the interpreter: a handler
    around the cells swallows the exception. *)
Example try_except_recovers :
  out (interp broken_lib
         (try_except (run_cells cells) (fun _ => ret tt) []) tt)
  = Done (tt, []).
Proof. reflexivity. Qed.

(** ** External interfaces (claim C3) *)

(** Claim C3 as stated fails: the run against the simulated library has an
    action, [print], that is neither in-process nor one of the four stated
    interfaces.  The notebook also writes text: cells 7 to 14 print
    metadata, and a cell that ends in an expression shows its value. *)
Lemma text_output_is_an_interface :
  ~ Forall (fun a => interface_of (request_of a) = InProcess \/
                     In (interface_of (request_of a)) stated_interfaces)
      (actions sim_run).
Proof.
  intro H. rewrite Forall_forall in H.
  specialize (H (Invoke "print" [VNone] [])).
  assert (Hin : In (Invoke "print" [VNone] []) (actions sim_run)).
  { apply (nth_error_In _ 8). vm_compute. reflexivity. }
  destruct (H Hin) as [E | E].
  - discriminate E.
  - cbv [stated_interfaces In] in E.
    destruct E as [E | [E | [E | [E | []]]]]; discriminate E.
Qed.

Lemma script_interfaces (q : request) :
  In q script ->
  In (interface_of q) (InProcess :: TextOutput :: stated_interfaces).
Proof.
  intro H. cbv [script In] in H.
  repeat (destruct H as [<- | H]; [ vm_compute; tauto | ]).
  contradiction.
Qed.

(** Claim C3, amended.  In every run, every action is in-process or goes
    through one of five interfaces: the four stated ones and text output.
    In a completed run each of the five is used: the only remote raster read
    is [open_rasterio] of the raster URL, the only remote vector read is
    [read_file] of the boundary URL, the only local write is [to_raster] of
    the loaded dataset to [output_raster.tif], and there are plotting and
    text-output actions. *)
Theorem interfaces_used {W : Type} (lib : action -> W -> result * W) (w : W) :
  let r := interp lib notebook w in
  Forall (fun a => In (interface_of (request_of a))
                      (InProcess :: TextOutput :: stated_interfaces))
    (actions r) /\
  (completed r ->
   exists data,
     lookup "data" (final_ns r) = Some data /\
     actions_on RemoteRasterRead (actions r) =
       [Invoke "rioxarray.open_rasterio" [VStr raster_url] []] /\
     actions_on RemoteVectorRead (actions r) =
       [Invoke "geopandas.read_file" [VStr boundary_url] []] /\
     actions_on LocalRasterWrite (actions r) =
       [Invoke "rio.to_raster" [data; VStr "output_raster.tif"] []] /\
     actions_on PlotRendering (actions r) <> [] /\
     actions_on TextOutput (actions r) <> [] /\
     is_url raster_url = true /\ is_url boundary_url = true /\
     is_url "output_raster.tif" = false).
Proof.
  intro r; subst r. split.
  - apply Forall_forall. intros a Ha.
    apply script_interfaces, (requests_in_script lib w), Ha.
  - intro Hc. open_run lib w Hc r Hr vs Hact Hans Hns.
    all: rewrite Hact, <- Hns; eexists.
    all: do 4 (split; [ reflexivity | ]).
    all: repeat split; try reflexivity; vm_compute; discriminate.
Qed.

Lemma interfaces_used_witness :
  exists data,
    lookup "data" (final_ns sim_run) = Some data /\
    actions_on RemoteRasterRead (actions sim_run) =
      [Invoke "rioxarray.open_rasterio" [VStr raster_url] []] /\
    actions_on RemoteVectorRead (actions sim_run) =
      [Invoke "geopandas.read_file" [VStr boundary_url] []] /\
    actions_on LocalRasterWrite (actions sim_run) =
      [Invoke "rio.to_raster" [data; VStr "output_raster.tif"] []] /\
    actions_on PlotRendering (actions sim_run) <> [] /\
    actions_on TextOutput (actions sim_run) <> [] /\
    is_url raster_url = true /\ is_url boundary_url = true /\
    is_url "output_raster.tif" = false.
Proof.
  apply (proj2 (interfaces_used Sim.lib [])).
  eexists. vm_compute. reflexivity.
Defined.

(** ** Delegation (claim C4) *)

(** Claim C4.  In a completed run each of the five geospatial operations is
    one call, and there is no other call of that function: loading is
    [open_rasterio] of the URL; reprojecting is [rio.reproject] of the
    loaded dataset and the EPSG string; clipping is [rio.clip_box] of the
    reprojected dataset and the four numbers of [bbox], and [rio.clip] of
    the loaded dataset and the two attributes read from [bounds];
    resampling is [rio.reproject] of the loaded dataset, its own [rio.crs]
    and the resolution; exporting is [rio.to_raster] of the loaded dataset
    and the file name.  The arguments are the values of the names and the
    literals of the cell, and each answer is bound to its name as it is. *)
Theorem direct_delegation {W : Type} (lib : action -> W -> result * W) (w : W) :
  let r := interp lib notebook w in
  completed r ->
  exists data data_reprojected clipped_data bounds clipped_data2
         resampled_data geometry crs crs_data saved,
    lookup "data" (final_ns r) = Some data /\
    lookup "data_reprojected" (final_ns r) = Some data_reprojected /\
    lookup "clipped_data" (final_ns r) = Some clipped_data /\
    lookup "bounds" (final_ns r) = Some bounds /\
    lookup "clipped_data2" (final_ns r) = Some clipped_data2 /\
    lookup "resampled_data" (final_ns r) = Some resampled_data /\
    invocations "rioxarray.open_rasterio" (calls r) =
      [(Invoke "rioxarray.open_rasterio" [VStr raster_url] [], Ok data)] /\
    invocations "rio.reproject" (calls r) =
      [(Invoke "rio.reproject" [data; VStr "EPSG:4326"] [],
        Ok data_reprojected);
       (Invoke "rio.reproject" [data; crs_data]
          [("resolution", VTuple [VInt 1000; VInt 1000])],
        Ok resampled_data)] /\
    invocations "rio.clip_box" (calls r) =
      [(Invoke "rio.clip_box"
          [data_reprojected; VFloat (-115391 # 1000); VFloat (35982 # 1000);
           VFloat (-114988 # 1000); VFloat (36425 # 1000)] [],
        Ok clipped_data)] /\
    invocations "rio.clip" (calls r) =
      [(Invoke "rio.clip" [data; geometry; crs] [], Ok clipped_data2)] /\
    invocations "rio.to_raster" (calls r) =
      [(Invoke "rio.to_raster" [data; VStr "output_raster.tif"] [], Ok saved)] /\
    In (GetAttr data "rio.crs", Ok crs_data) (calls r) /\
    In (GetAttr bounds "geometry", Ok geometry) (calls r) /\
    In (GetAttr bounds "crs", Ok crs) (calls r).
Proof.
  intros r Hc. subst r.
  open_run lib w Hc r Hr vs Hact Hans Hns.
  all: rewrite calls_combine, Hact, Hans, <- Hns.
  all: do 10 eexists.
  all: do 11 (split; [ reflexivity | ]).
  all: split; [ now apply (nth_error_In _ 36) | ].
  all: split; [ now apply (nth_error_In _ 31) | now apply (nth_error_In _ 32) ].
Qed.

Lemma direct_delegation_witness :
  exists data data_reprojected clipped_data bounds clipped_data2
         resampled_data geometry crs crs_data saved,
    lookup "data" (final_ns sim_run) = Some data /\
    lookup "data_reprojected" (final_ns sim_run) = Some data_reprojected /\
    lookup "clipped_data" (final_ns sim_run) = Some clipped_data /\
    lookup "bounds" (final_ns sim_run) = Some bounds /\
    lookup "clipped_data2" (final_ns sim_run) = Some clipped_data2 /\
    lookup "resampled_data" (final_ns sim_run) = Some resampled_data /\
    invocations "rioxarray.open_rasterio" (calls sim_run) =
      [(Invoke "rioxarray.open_rasterio" [VStr raster_url] [], Ok data)] /\
    invocations "rio.reproject" (calls sim_run) =
      [(Invoke "rio.reproject" [data; VStr "EPSG:4326"] [],
        Ok data_reprojected);
       (Invoke "rio.reproject" [data; crs_data]
          [("resolution", VTuple [VInt 1000; VInt 1000])],
        Ok resampled_data)] /\
    invocations "rio.clip_box" (calls sim_run) =
      [(Invoke "rio.clip_box"
          [data_reprojected; VFloat (-115391 # 1000); VFloat (35982 # 1000);
           VFloat (-114988 # 1000); VFloat (36425 # 1000)] [],
        Ok clipped_data)] /\
    invocations "rio.clip" (calls sim_run) =
      [(Invoke "rio.clip" [data; geometry; crs] [], Ok clipped_data2)] /\
    invocations "rio.to_raster" (calls sim_run) =
      [(Invoke "rio.to_raster" [data; VStr "output_raster.tif"] [], Ok saved)] /\
    In (GetAttr data "rio.crs", Ok crs_data) (calls sim_run) /\
    In (GetAttr bounds "geometry", Ok geometry) (calls sim_run) /\
    In (GetAttr bounds "crs", Ok crs) (calls sim_run).
Proof.
  apply (direct_delegation Sim.lib []).
  eexists. vm_compute. reflexivity.
Defined.

(** ** Order of the stages (claim C5) *)

Lemma none_after_sound (P Q : request -> bool) (l : list request) :
  none_after P Q l = true ->
  forall i j p q,
    nth_error l i = Some p -> nth_error l j = Some q ->
    P p = true -> Q q = true -> i < j.
Proof.
  induction l as [ | x l IH]; intros H i j p q Hi Hj Hp Hq.
  - destruct i; discriminate Hi.
  - cbn in H. apply andb_true_iff in H as [Hx Hrest].
    destruct i as [ | i], j as [ | j]; cbn in Hi, Hj.
    + injection Hi as ->. injection Hj as ->. rewrite Hq in Hx.
      apply andb_true_iff in Hx as [Hx _]. rewrite Hp in Hx. discriminate Hx.
    + lia.
    + injection Hj as ->. rewrite Hq in Hx.
      apply andb_true_iff in Hx as [_ Hx].
      rewrite forallb_forall in Hx.
      apply nth_error_In in Hi. apply Hx in Hi. rewrite Hp in Hi.
      discriminate Hi.
    + apply -> Nat.succ_lt_mono. eapply IH; eauto.
Qed.

Lemma script_order (s t : stage) :
  none_after (at_stage s) (at_stage t) script = true ->
  forall {W : Type} (lib : action -> W -> result * W) (w : W),
    all_before s t (map request_of (actions (interp lib notebook w))).
Proof.
  intros H W lib w i j p q Hi Hj.
  apply request_at in Hi, Hj.
  eapply none_after_sound; eauto.
Qed.

(** A property of the requests by position, checked along the list. *)
Lemma positions_checked {A : Type} (f : nat -> A -> bool) (l : list A)
  (k : nat) :
  forallb (fun ip => f (fst ip) (snd ip)) (combine (seq k (length l)) l)
  = true ->
  forall i p, nth_error l i = Some p -> f (k + i) p = true.
Proof.
  revert k; induction l as [ | x l IH]; intros k H i p Hi.
  - destruct i; discriminate Hi.
  - cbn in H. apply andb_true_iff in H as [Hx Hl].
    destruct i as [ | i]; cbn in Hi.
    + injection Hi as <-. now rewrite Nat.add_0_r.
    + rewrite <- Nat.add_succ_comm. now apply IH.
Qed.

(** Claim C5 as stated fails between its second and its third stage: not
    every metadata read comes before every transform.  Cell 14 reads
    [data_reprojected.rio.crs] (action 23) right after it has reprojected
    (action 22). *)
Lemma inspection_after_transform :
  ~ (forall (W : Type) (lib : action -> W -> result * W) (w : W),
        all_before Inspect Transform
          (map request_of (actions (interp lib notebook w)))).
Proof.
  intro H.
  specialize (H _ Sim.lib [] 23 22 (RAttr "rio.crs") (RCall "rio.reproject" [])).
  assert (C : 23 < 22) by (apply H; vm_compute; reflexivity).
  lia.
Qed.

(** Claim C5, amended.  In every run, against any library: the load comes
    before every metadata read, transform, plot and export; every metadata
    read and every transform comes before every plot and before the export;
    every plot comes before the export; and by the time the first transform
    is requested, the five pieces of metadata of cells 7 to 12 (dims,
    coords, attrs, rio.crs, rio.transform) have each been read.  The
    metadata reads do not all precede the transforms: the first transform
    is action 22, and after it [rio.crs] is read twice more, as action 23
    (to print the new CRS) and as action 36 (the target of the resampling);
    every other metadata read is among the first 22 actions.  A completed
    run has issued the whole script, and so has gone through each of the
    five stages. *)
Theorem stages_in_order {W : Type} (lib : action -> W -> result * W) (w : W) :
  let r := interp lib notebook w in
  let qs := map request_of (actions r) in
  all_before Load Inspect qs /\ all_before Load Transform qs /\
  all_before Load Visualize qs /\ all_before Load Export qs /\
  all_before Inspect Visualize qs /\ all_before Inspect Export qs /\
  all_before Transform Visualize qs /\ all_before Transform Export qs /\
  all_before Visualize Export qs /\
  inspected_before_transforming qs /\
  (forall j q, nth_error qs j = Some q -> at_stage Transform q = true ->
     22 <= j) /\
  (forall i p, nth_error qs i = Some p -> at_stage Inspect p = true ->
     i < 22 \/ (p = RAttr "rio.crs" /\ (i = 23 \/ i = 36))) /\
  (completed r ->
     qs = script /\
     forall s, exists i q, nth_error qs i = Some q /\ at_stage s q = true).
Proof.
  intros r qs. subst qs r.
  repeat (split; [ apply script_order; vm_compute; reflexivity | ]).
  assert (Hfirst : forall j q,
            nth_error (map request_of (actions (interp lib notebook w))) j
            = Some q ->
            at_stage Transform q = true -> 22 <= j).
  { intros j q Hj Hq. apply request_at in Hj.
    pose proof (positions_checked
                  (fun i p => negb (at_stage Transform p) || (22 <=? i))
                  script 0) as H.
    specialize (H ltac:(vm_compute; reflexivity) j q Hj).
    cbn [Nat.add] in H. rewrite Hq in H. cbn [negb orb] in H.
    now apply Nat.leb_le. }
  split; [ | split; [ exact Hfirst | split ] ].
  - intros j q Hj Hq m Hm.
    assert (Hlen : j < length (map request_of
                                 (actions (interp lib notebook w))))
      by (apply nth_error_Some; congruence).
    pose proof (Hfirst j q Hj Hq) as Hj22.
    assert (Hpre : forall i, i < 22 ->
              nth_error (map request_of (actions (interp lib notebook w))) i =
              nth_error script i).
    { intros i Hi. rewrite requests_prefix.
      rewrite requests_prefix, length_firstn in Hlen.
      rewrite nth_error_firstn.
      destruct (Nat.ltb_spec i (length (log (interp lib notebook w))));
        [ reflexivity | lia ]. }
    cbn in Hm.
    destruct Hm as [<- | [<- | [<- | [<- | [<- | []]]]]].
    + exists 7. split; [ lia | rewrite Hpre by lia; reflexivity ].
    + exists 10. split; [ lia | rewrite Hpre by lia; reflexivity ].
    + exists 13. split; [ lia | rewrite Hpre by lia; reflexivity ].
    + exists 16. split; [ lia | rewrite Hpre by lia; reflexivity ].
    + exists 19. split; [ lia | rewrite Hpre by lia; reflexivity ].
  - intros i p Hi Hp. apply request_at in Hi.
    pose proof (positions_checked
                  (fun i p => negb (at_stage Inspect p) || (i <? 22)
                              || (i =? 23) || (i =? 36))
                  script 0) as H.
    specialize (H ltac:(vm_compute; reflexivity) i p Hi).
    cbn [Nat.add] in H. rewrite Hp in H. cbn [negb orb] in H.
    apply orb_true_iff in H as [H | H];
      [ apply orb_true_iff in H as [H | H] | ].
    + left. now apply Nat.ltb_lt.
    + apply Nat.eqb_eq in H. subst i. cbn in Hi. injection Hi as <-.
      right. auto.
    + apply Nat.eqb_eq in H. subst i. cbn in Hi. injection Hi as <-.
      right. auto.
  - intro Hc. rewrite (completed_requests lib w Hc).
    split; [ reflexivity | ].
    intros [ | | | | ];
      [ exists 5 | exists 7 | exists 22 | exists 43 | exists 67 ];
      eexists; split; reflexivity.
Qed.

(** The simulated run goes through the five stages, in the order stated. *)
Lemma stages_in_order_witness :
  let qs := map request_of (actions sim_run) in
  qs = script /\
  (forall s, exists i q, nth_error qs i = Some q /\ at_stage s q = true) /\
  all_before Load Inspect qs /\
  inspected_before_transforming qs /\
  all_before Transform Visualize qs /\
  all_before Visualize Export qs.
Proof.
  intro qs. subst qs.
  destruct (stages_in_order Sim.lib [])
    as (H1 & _ & _ & _ & _ & _ & H7 & _ & H9 & H10 & _ & _ & Hc).
  destruct (Hc sim_completed) as [Hs Hall].
  repeat split; assumption.
Defined.

(** ** Coverage (claim C6) *)

(** Claim C6.  A completed run performs each of the seven operations on
    the raster that [open_rasterio] returned or on a dataset derived from
    it: it loads it; reads its dims, coords, attrs and CRS; reprojects it;
    clips the reprojected dataset to the box and the loaded one to the
    boundary geometry; resamples it; plots three bands of the reprojected
    dataset and shows the figure; and writes it to a file. *)
Theorem every_operation_performed {W : Type}
  (lib : action -> W -> result * W) (w : W) :
  let r := interp lib notebook w in
  completed r ->
  exists data data_reprojected clipped_data bounds geometry crs crs_data rgb kw,
    lookup "data" (final_ns r) = Some data /\
    lookup "data_reprojected" (final_ns r) = Some data_reprojected /\
    lookup "clipped_data" (final_ns r) = Some clipped_data /\
    lookup "bounds" (final_ns r) = Some bounds /\
    (* loading *)
    In (Invoke "rioxarray.open_rasterio" [VStr raster_url] [], Ok data)
       (calls r) /\
    (* inspecting *)
    In (GetAttr data "dims") (actions r) /\
    In (GetAttr data "coords") (actions r) /\
    In (GetAttr data "attrs") (actions r) /\
    In (GetAttr data "rio.crs") (actions r) /\
    (* reprojecting *)
    In (Invoke "rio.reproject" [data; VStr "EPSG:4326"] [],
        Ok data_reprojected) (calls r) /\
    (* clipping *)
    In (Invoke "rio.clip_box"
          [data_reprojected; VFloat (-115391 # 1000); VFloat (35982 # 1000);
           VFloat (-114988 # 1000); VFloat (36425 # 1000)] [],
        Ok clipped_data) (calls r) /\
    In (Invoke "rio.clip" [data; geometry; crs] []) (actions r) /\
    In (GetAttr bounds "geometry", Ok geometry) (calls r) /\
    In (GetAttr bounds "crs", Ok crs) (calls r) /\
    (* resampling *)
    In (Invoke "rio.reproject" [data; crs_data]
          [("resolution", VTuple [VInt 1000; VInt 1000])]) (actions r) /\
    In (GetAttr data "rio.crs", Ok crs_data) (calls r) /\
    (* visualizing *)
    In (Invoke "sel" [data_reprojected]
          [("band", VList [VInt 4; VInt 3; VInt 2])], Ok rgb) (calls r) /\
    In (Invoke "plot.imshow" [rgb] kw) (actions r) /\
    In (Invoke "matplotlib.pyplot.show" [] []) (actions r) /\
    (* exporting *)
    In (Invoke "rio.to_raster" [data; VStr "output_raster.tif"] [])
       (actions r).
Proof.
  intros r Hc; subst r. open_run lib w Hc r Hr vs Hact Hans Hns.
  all: rewrite calls_combine, Hact, Hans, <- Hns.
  all: do 9 eexists.
  all: do 4 (split; [ reflexivity | ]).
  all: split; [ now apply (nth_error_In _ 5) | ].
  all: split; [ now apply (nth_error_In _ 7) | ].
  all: split; [ now apply (nth_error_In _ 10) | ].
  all: split; [ now apply (nth_error_In _ 13) | ].
  all: split; [ now apply (nth_error_In _ 16) | ].
  all: split; [ now apply (nth_error_In _ 22) | ].
  all: split; [ now apply (nth_error_In _ 26) | ].
  all: split; [ now apply (nth_error_In _ 33) | ].
  all: split; [ now apply (nth_error_In _ 31) | ].
  all: split; [ now apply (nth_error_In _ 32) | ].
  all: split; [ now apply (nth_error_In _ 37) | ].
  all: split; [ now apply (nth_error_In _ 36) | ].
  all: split; [ now apply (nth_error_In _ 44) | ].
  all: split; [ now apply (nth_error_In _ 45) | ].
  all: split; [ now apply (nth_error_In _ 49) | ].
  all: now apply (nth_error_In _ 67).
Qed.

Lemma every_operation_performed_witness :
  exists data data_reprojected,
    lookup "data" (final_ns sim_run) = Some data /\
    lookup "data_reprojected" (final_ns sim_run) = Some data_reprojected /\
    In (Invoke "rioxarray.open_rasterio" [VStr raster_url] [], Ok data)
       (calls sim_run) /\
    In (Invoke "rio.reproject" [data; VStr "EPSG:4326"] [],
        Ok data_reprojected) (calls sim_run) /\
    In (Invoke "rio.to_raster" [data; VStr "output_raster.tif"] [])
       (actions sim_run).
Proof.
  destruct (every_operation_performed Sim.lib [] sim_completed)
    as (data & dr & cd & b & g & c & cdata & rgb & kw & H).
  exists data, dr. tauto.
Defined.

(** ** Concurrency (claim C7) *)

(** Claim C7.  In every run, no action imports or calls anything of the
    threading, process, asynchronous or scheduling modules; the only
    modules imported are rioxarray, xarray, matplotlib.pyplot and
    geopandas; and the actions are performed one after the other, each in
    the world the previous one left. *)
Theorem no_concurrency {W : Type} (lib : action -> W -> result * W) (w : W) :
  let r := interp lib notebook w in
  Forall (fun a => concurrent (request_of a) = false) (actions r) /\
  incl (imports (actions r))
       ["rioxarray"; "xarray"; "matplotlib.pyplot"; "geopandas"] /\
  justified lib w (log r).
Proof.
  intro r; subst r. split; [ | split ].
  - apply Forall_forall. intros a Ha.
    apply (requests_in_script lib w) in Ha.
    revert Ha. generalize (request_of a) as q. intros q Hq.
    cbv [script In] in Hq.
    repeat (destruct Hq as [<- | Hq]; [ vm_compute; reflexivity | ]).
    contradiction.
  - intros m Hm. unfold imports in Hm. apply in_flat_map in Hm as [a [Ha Hm]].
    apply (requests_in_script lib w) in Ha.
    destruct a as [m' | | ]; try contradiction.
    destruct Hm as [<- | []]. cbn in Ha.
    cbv [script In] in Ha.
    repeat (destruct Ha as [Ha | Ha];
            [ try discriminate Ha; injection Ha as <-; cbn; tauto | ]).
    contradiction.
  - apply interp_justified.
Qed.

(** ** Datasets along a run *)

Section Worlds.

Context {W D : Type} (lib : action -> W -> result * W)
        (peek : W -> value -> option D).

Lemma justified_step (w : W) (l : list (event W)) (i : nat) (ev : event W) :
  justified lib w l -> nth_error l i = Some ev ->
  lib (ev_action ev) (world_after w (firstn i l)) = (ev_result ev, ev_after ev)
  /\ world_after w (firstn (S i) l) = ev_after ev.
Proof.
  revert w i; induction l as [ | e l IH]; intros w [ | i] J H;
    try discriminate H; cbn in J, H.
  - injection H as ->. cbn. split; [ apply J | ].
    destruct l; reflexivity.
  - destruct J as [_ J]. apply (IH _ _ J H).
Qed.

Lemma justified_kept (w : W) (l : list (event W)) (o : value) (d : D) :
  justified lib w l ->
  (forall ev, In ev l -> keeps_datasets lib peek (ev_action ev)) ->
  peek w o = Some d ->
  (forall ev, In ev l -> peek (ev_after ev) o = Some d) /\
  peek (world_after w l) o = Some d.
Proof.
  revert w; induction l as [ | e l IH]; intros w J K H.
  - split; [ intros ev [] | exact H ].
  - destruct J as [Je J].
    assert (He : peek (ev_after e) o = Some d).
    { pose proof (K e (or_introl eq_refl) w o d H) as Hk.
      rewrite Je in Hk. exact Hk. }
    destruct (IH (ev_after e) J (fun ev Hin => K ev (or_intror Hin)) He)
      as [IH1 IH2].
    split; [ | exact IH2 ].
    intros ev [<- | Hin]; auto.
Qed.

Lemma justified_app (w : W) (l1 l2 : list (event W)) :
  justified lib w (l1 ++ l2) ->
  justified lib w l1 /\ justified lib (world_after w l1) l2.
Proof.
  revert w; induction l1 as [ | e l1 IH]; intros w J; cbn in *.
  - auto.
  - destruct J as [Je J]. destruct (IH _ J). auto.
Qed.

Lemma world_after_app (w : W) (l1 l2 : list (event W)) :
  world_after w (l1 ++ l2) = world_after (world_after w l1) l2.
Proof. revert w; induction l1 as [ | e l1 IH]; intro w; cbn; auto. Qed.

End Worlds.

Section NotebookWorlds.

Context {W D : Type} (lib : action -> W -> result * W)
        (peek : W -> value -> option D) (w : W).

Let r := interp lib notebook w.

Lemma event_at (i : nat) (a : action) (x : result) :
  nth_error (actions r) i = Some a ->
  nth_error (answers r) i = Some x ->
  exists ev, nth_error (log r) i = Some ev /\
             ev_action ev = a /\ ev_result ev = x.
Proof.
  unfold actions, answers. rewrite !nth_error_map.
  destruct (nth_error (log r) i) as [ev | ]; cbn; [ | discriminate ].
  intros [= <-] [= <-]. eauto.
Qed.

(** The [i]-th action takes the world from [world_at i] to
    [world_at (S i)]. *)
Lemma step_at (i : nat) (a : action) (x : result) :
  nth_error (actions r) i = Some a ->
  nth_error (answers r) i = Some x ->
  lib a (world_at r w i) = (x, world_at r w (S i)).
Proof.
  intros Ha Hx. destruct (event_at i a x Ha Hx) as [ev [Hev [<- <-]]].
  destruct (justified_step lib w (log r) i ev
              (interp_justified lib notebook w) Hev) as [H1 H2].
  unfold world_at. rewrite H2. exact H1.
Qed.

Lemma final_world : final r = world_at r w (length (log r)).
Proof.
  unfold world_at. rewrite firstn_all. apply interp_final.
Qed.

Hypothesis library_non_mutating : non_mutating lib peek.

Lemma notebook_keeps (ev : event W) :
  In ev (log r) -> keeps_datasets lib peek (ev_action ev).
Proof.
  intro H. apply library_non_mutating.
  apply (requests_in_script lib w).
  unfold actions. apply in_map, H.
Qed.

(** Once a dataset holds [d], it holds [d] at every later point of the
    run. *)
Lemma kept (i j : nat) (o : value) (d : D) :
  i <= j ->
  peek (world_at r w i) o = Some d -> peek (world_at r w j) o = Some d.
Proof.
  intros Hij H. unfold world_at in *.
  rewrite <- (firstn_skipn i (firstn j (log r))).
  rewrite firstn_firstn, Nat.min_l by exact Hij.
  rewrite world_after_app.
  pose proof (interp_justified lib notebook w) as J. fold r in J.
  rewrite <- (firstn_skipn j (log r)) in J.
  apply justified_app in J as [J _].
  rewrite <- (firstn_skipn i (firstn j (log r))) in J.
  rewrite firstn_firstn, Nat.min_l in J by exact Hij.
  apply justified_app in J as [_ J].
  refine (proj2 (justified_kept lib peek _ _ o d J _ H)).
  intros ev Hin. apply notebook_keeps.
  apply in_skipn_firstn in Hin. exact Hin.
Qed.

Hypothesis library_builds : transforms_build lib peek.

Lemma built_at (i : nat) (a : action) (o : value) :
  nth_error (actions r) i = Some a ->
  nth_error (answers r) i = Some (Ok o) ->
  In (request_of a) producers ->
  peek (world_at r w i) o = None /\
  exists d, peek (world_at r w (S i)) o = Some d.
Proof.
  intros Ha Hx Hp.
  pose proof (step_at i a _ Ha Hx) as Hs.
  pose proof (library_builds a Hp (world_at r w i) o) as Hb.
  rewrite Hs in Hb. destruct (Hb eq_refl) as [Hnone Hsome].
  split; [ exact Hnone | ].
  cbn [snd] in Hsome. destruct (peek (world_at r w (S i)) o) as [d | ];
    [ eauto | now elim Hsome ].
Qed.

Lemma built_then_kept (i : nat) (a : action) (o : value) :
  nth_error (actions r) i = Some a ->
  nth_error (answers r) i = Some (Ok o) ->
  In (request_of a) producers ->
  unchanged_since_built peek r o.
Proof.
  intros Ha Hx Hp.
  destruct (built_at i a o Ha Hx Hp) as [_ [d Hd]].
  destruct (event_at i a _ Ha Hx) as [ev [Hev [Hact Hres]]].
  pose proof (interp_justified lib notebook w) as J. fold r in J.
  destruct (justified_step lib w (log r) i ev J Hev) as [_ Hw].
  apply nth_error_split in Hev as [pre [post [Hlog Hlen]]].
  exists pre, ev, post, d.
  assert (Hafter : peek (ev_after ev) o = Some d).
  { rewrite <- Hw. exact Hd. }
  rewrite Hact.
  split; [ exact Hlog | ]. split; [ exact Hres | ]. split; [ exact Hp | ].
  split; [ exact Hafter | ]. split.
  - intros ev' Hin.
    rewrite Hlog in J. apply justified_app in J as [_ [_ J]].
    refine (proj1 (justified_kept lib peek _ _ o d J _ Hafter) ev' Hin).
    intros e He. apply notebook_keeps.
    rewrite Hlog. apply in_or_app. right. right. exact He.
  - rewrite final_world.
    apply (kept (S i)); [ | exact Hd ].
    apply Nat.le_succ_l, nth_error_Some.
    rewrite Hlog, nth_error_app2, Hlen, Nat.sub_diag by lia.
    discriminate.
Qed.

Lemma built_apart (i j : nat) (a b : action) (o p : value) :
  i < j ->
  nth_error (actions r) i = Some a ->
  nth_error (answers r) i = Some (Ok o) ->
  In (request_of a) producers ->
  nth_error (actions r) j = Some b ->
  nth_error (answers r) j = Some (Ok p) ->
  In (request_of b) producers ->
  o <> p.
Proof.
  intros Hij Ha Hx Hp Hb Hy Hq E. subst p.
  destruct (built_at i a o Ha Hx Hp) as [_ [d Hd]].
  destruct (built_at j b o Hb Hy Hq) as [Hnone _].
  pose proof (kept (S i) j o d Hij Hd) as Hk.
  congruence.
Qed.

End NotebookWorlds.

(** ** The simulated library honours the contract *)

Lemma sim_non_mutating : non_mutating Sim.lib Sim.deref.
Proof.
  intros a _ w o d H. unfold Sim.lib; cbn [snd].
  destruct o; try discriminate H. cbn in *.
  rewrite nth_error_app1; [ exact H | ].
  apply nth_error_Some. congruence.
Qed.

Lemma sim_fresh (w : Sim.world) (d : Sim.dataset) (v : value) :
  Ok (VObj (length w)) = Ok v ->
  Sim.deref w v = None /\ Sim.deref (w ++ [d]) v <> None.
Proof.
  intros [= <-]. cbn. split.
  - apply nth_error_None. lia.
  - rewrite nth_error_app2, Nat.sub_diag by lia. discriminate.
Qed.

Lemma sim_derive_fresh (w : Sim.world) (o v : value)
  (f : Sim.dataset -> Sim.dataset) :
  fst (Sim.derive w o f) = Ok v ->
  Sim.deref w v = None /\ Sim.deref (w ++ snd (Sim.derive w o f)) v <> None.
Proof.
  unfold Sim.derive. destruct (Sim.deref w o) as [d | ]; cbn [fst snd].
  - apply sim_fresh.
  - discriminate.
Qed.

Lemma sim_transforms_build : transforms_build Sim.lib Sim.deref.
Proof.
  intros a Hin w v. unfold Sim.lib; cbn [fst snd].
  destruct a as [m | o attr | fn args kw]; cbn in Hin;
    try (repeat destruct Hin as [Hin | Hin]; try discriminate Hin;
         contradiction).
  destruct Hin as [Hin | [Hin | [Hin | [Hin | [Hin | []]]]]];
    injection Hin as <- _; cbn.
  - apply sim_fresh.
  - destruct args as [ | o [ | target rest]]; try discriminate.
    apply sim_derive_fresh.
  - destruct args as [ | o rest]; [ discriminate | apply sim_derive_fresh ].
  - destruct args as [ | o rest]; [ discriminate | apply sim_derive_fresh ].
  - destruct args as [ | o [ | target rest]]; try discriminate.
    apply sim_derive_fresh.
Qed.

Lemma sim_reproject_sets_crs :
  reproject_sets_crs Sim.lib Sim.deref Sim.ds_crs (fun c => c).
Proof.
  intros o target kw w v. unfold Sim.lib; cbn. unfold Sim.derive.
  destruct (Sim.deref w o) as [d | ]; cbn; [ | discriminate ].
  intros [= <-]. exists (Sim.Dataset target). cbn.
  rewrite nth_error_app2, Nat.sub_diag by lia. auto.
Qed.

Lemma sim_crs_accessor_sound :
  crs_accessor_sound Sim.lib Sim.deref Sim.ds_crs.
Proof.
  intros o w c. unfold Sim.lib; cbn.
  destruct (Sim.deref w o) as [d | ]; cbn; [ | discriminate ].
  intros [= <-]. eauto.
Qed.

Lemma sim_crs_is_canonical :
  crs_is_canonical Sim.deref Sim.ds_crs (fun c => c).
Proof. intros w o d _. reflexivity. Qed.

(** ** Inputs are left as they were (claim C1) *)

(** Claim C1.  Take a library that writes to no existing dataset, whatever
    the notebook asks of it, and whose loading and transform methods answer
    with a dataset that did not exist before.  Then in a completed run the
    loaded dataset and the results of reprojecting, box clipping, geometry
    clipping and resampling are five different objects, each bound to a
    name of its own; the loaded and the reprojected dataset, the inputs of
    the operations, hold after every later action and at the end what they
    held when they were built; and every name of the notebook is bound
    exactly once, so that nothing it has bound is ever overwritten. *)
Theorem inputs_left_unchanged {W D : Type} (lib : action -> W -> result * W)
  (peek : W -> value -> option D) (w : W) :
  non_mutating lib peek ->
  transforms_build lib peek ->
  let r := interp lib notebook w in
  completed r ->
  exists data data_reprojected clipped_data clipped_data2 resampled_data,
    lookup "data" (final_ns r) = Some data /\
    lookup "data_reprojected" (final_ns r) = Some data_reprojected /\
    lookup "clipped_data" (final_ns r) = Some clipped_data /\
    lookup "clipped_data2" (final_ns r) = Some clipped_data2 /\
    lookup "resampled_data" (final_ns r) = Some resampled_data /\
    NoDup [data; data_reprojected; clipped_data; clipped_data2;
           resampled_data] /\
    unchanged_since_built peek r data /\
    unchanged_since_built peek r data_reprojected /\
    NoDup (map fst (final_ns r)).
Proof.
  intros Hnm Hb r Hc; subst r.
  pose proof (built_then_kept lib peek w Hnm Hb) as Kept.
  pose proof (built_apart lib peek w Hnm Hb) as Apart.
  open_run lib w Hc r Hr vs Hact Hans Hns.
  all: rewrite <- Hns; do 5 eexists.
  all: do 5 (split; [ reflexivity | ]).
  all: assert (P5 : In (RCall "rioxarray.open_rasterio" []) producers)
         by (cbn; tauto).
  all: assert (P22 : In (RCall "rio.reproject" []) producers) by (cbn; tauto).
  all: assert (P26 : In (RCall "rio.clip_box" []) producers) by (cbn; tauto).
  all: assert (P33 : In (RCall "rio.clip" []) producers) by (cbn; tauto).
  all: assert (P37 : In (RCall "rio.reproject" ["resolution"]) producers)
         by (cbn; tauto).
  all: assert (A1 := Apart 5 22 _ _ _ _ ltac:(lia) ltac:(action_at Hact)
                       ltac:(action_at Hans) P5 ltac:(action_at Hact)
                       ltac:(action_at Hans) P22).
  all: assert (A2 := Apart 5 26 _ _ _ _ ltac:(lia) ltac:(action_at Hact)
                       ltac:(action_at Hans) P5 ltac:(action_at Hact)
                       ltac:(action_at Hans) P26).
  all: assert (A3 := Apart 5 33 _ _ _ _ ltac:(lia) ltac:(action_at Hact)
                       ltac:(action_at Hans) P5 ltac:(action_at Hact)
                       ltac:(action_at Hans) P33).
  all: assert (A4 := Apart 5 37 _ _ _ _ ltac:(lia) ltac:(action_at Hact)
                       ltac:(action_at Hans) P5 ltac:(action_at Hact)
                       ltac:(action_at Hans) P37).
  all: assert (A5 := Apart 22 26 _ _ _ _ ltac:(lia) ltac:(action_at Hact)
                       ltac:(action_at Hans) P22 ltac:(action_at Hact)
                       ltac:(action_at Hans) P26).
  all: assert (A6 := Apart 22 33 _ _ _ _ ltac:(lia) ltac:(action_at Hact)
                       ltac:(action_at Hans) P22 ltac:(action_at Hact)
                       ltac:(action_at Hans) P33).
  all: assert (A7 := Apart 22 37 _ _ _ _ ltac:(lia) ltac:(action_at Hact)
                       ltac:(action_at Hans) P22 ltac:(action_at Hact)
                       ltac:(action_at Hans) P37).
  all: assert (A8 := Apart 26 33 _ _ _ _ ltac:(lia) ltac:(action_at Hact)
                       ltac:(action_at Hans) P26 ltac:(action_at Hact)
                       ltac:(action_at Hans) P33).
  all: assert (A9 := Apart 26 37 _ _ _ _ ltac:(lia) ltac:(action_at Hact)
                       ltac:(action_at Hans) P26 ltac:(action_at Hact)
                       ltac:(action_at Hans) P37).
  all: assert (A10 := Apart 33 37 _ _ _ _ ltac:(lia) ltac:(action_at Hact)
                       ltac:(action_at Hans) P33 ltac:(action_at Hact)
                       ltac:(action_at Hans) P37).
  all: split;
    [ repeat (constructor;
              [ intro H; cbn [In] in H;
                repeat (destruct H as [H | H]; [ congruence | ]); exact H | ]);
      constructor
    | split;
      [ eapply (Kept 5); [ action_at Hact | action_at Hans | exact P5 ]
      | split;
        [ eapply (Kept 22); [ action_at Hact | action_at Hans | exact P22 ]
        | cbn [map fst];
          repeat (constructor;
                  [ intro H; cbn [In] in H;
                    repeat (destruct H as [H | H]; [ discriminate H | ]);
                    exact H | ]);
          constructor ] ] ].
Qed.

Lemma inputs_left_unchanged_witness :
  exists data data_reprojected clipped_data clipped_data2 resampled_data,
    lookup "data" (final_ns sim_run) = Some data /\
    lookup "data_reprojected" (final_ns sim_run) = Some data_reprojected /\
    lookup "clipped_data" (final_ns sim_run) = Some clipped_data /\
    lookup "clipped_data2" (final_ns sim_run) = Some clipped_data2 /\
    lookup "resampled_data" (final_ns sim_run) = Some resampled_data /\
    NoDup [data; data_reprojected; clipped_data; clipped_data2;
           resampled_data] /\
    unchanged_since_built Sim.deref sim_run data /\
    unchanged_since_built Sim.deref sim_run data_reprojected /\
    NoDup (map fst (final_ns sim_run)).
Proof.
  apply (inputs_left_unchanged Sim.lib Sim.deref []
           sim_non_mutating sim_transforms_build).
  eexists. vm_compute. reflexivity.
Defined.

(** ** The CRS after reprojecting (claim C9) *)

(** Claim C9.  Take a library whose [rio.reproject] answers with a dataset
    in the CRS it was asked for, whose [rio.crs] reports the CRS a dataset
    records, and which writes to no existing dataset.  Then in a completed
    run, whatever dataset was loaded, the dataset bound to
    [data_reprojected] is the answer of reprojecting the loaded one to
    EPSG:4326; it records that CRS; that CRS is what cell 14 reads from it
    and prints; and it still records it at the end of the run. *)
Theorem reprojected_crs {W D : Type} (lib : action -> W -> result * W)
  (peek : W -> value -> option D) (crs : D -> value)
  (crs_from_user_input : value -> value) (w : W) :
  non_mutating lib peek ->
  reproject_sets_crs lib peek crs crs_from_user_input ->
  crs_accessor_sound lib peek crs ->
  let r := interp lib notebook w in
  completed r ->
  exists data data_reprojected d,
    lookup "data" (final_ns r) = Some data /\
    lookup "data_reprojected" (final_ns r) = Some data_reprojected /\
    In (Invoke "rio.reproject" [data; VStr "EPSG:4326"] [],
        Ok data_reprojected) (calls r) /\
    peek (final r) data_reprojected = Some d /\
    crs d = crs_from_user_input (VStr "EPSG:4326") /\
    In (GetAttr data_reprojected "rio.crs",
        Ok (crs_from_user_input (VStr "EPSG:4326"))) (calls r) /\
    In (Invoke "print" [crs_from_user_input (VStr "EPSG:4326")] [])
       (actions r).
Proof.
  intros Hnm Hrep Hacc r Hc; subst r.
  pose proof (step_at lib w) as Step.
  pose proof (kept lib peek w Hnm) as Kept.
  pose proof (final_world lib w) as Hfin.
  open_run lib w Hc r Hr vs Hact Hans Hns.
  all: pose proof (Step 22 _ _ ltac:(action_at Hact) ltac:(action_at Hans))
         as S22.
  all: pose proof (Step 23 _ _ ltac:(action_at Hact) ltac:(action_at Hans))
         as S23.
  all: pose proof (Hrep _ _ _ (world_at r w 22) _
                     ltac:(rewrite S22; reflexivity))
         as [d [Hd Hcrs]]; rewrite S22 in Hd; cbn [snd] in Hd.
  all: pose proof (Hacc _ (world_at r w 23) _ ltac:(rewrite S23; reflexivity))
         as [d' [Hd' Hcrs']].
  all: assert (d' = d) by congruence; subst d'.
  all: assert (Hlen : length (log r) = 69)
         by (rewrite <- (length_map ev_action); fold (actions r);
             rewrite Hact; reflexivity).
  all: rewrite Hlen in Hfin.
  all: rewrite calls_combine, Hact, Hans, <- Hns.
  all: do 2 eexists; exists d.
  all: do 2 (split; [ reflexivity | ]).
  all: split; [ now apply (nth_error_In _ 22) | ].
  all: split; [ rewrite Hfin; apply (Kept 23); [ lia | exact Hd ] | ].
  all: split; [ exact Hcrs | ].
  all: rewrite <- Hcrs, Hcrs'.
  all: split; [ now apply (nth_error_In _ 23) | now apply (nth_error_In _ 24) ].
Qed.

Lemma reprojected_crs_witness :
  exists data data_reprojected d,
    lookup "data" (final_ns sim_run) = Some data /\
    lookup "data_reprojected" (final_ns sim_run) = Some data_reprojected /\
    In (Invoke "rio.reproject" [data; VStr "EPSG:4326"] [],
        Ok data_reprojected) (calls sim_run) /\
    Sim.deref (final sim_run) data_reprojected = Some d /\
    Sim.ds_crs d = VStr "EPSG:4326" /\
    In (GetAttr data_reprojected "rio.crs", Ok (VStr "EPSG:4326"))
       (calls sim_run) /\
    In (Invoke "print" [VStr "EPSG:4326"] []) (actions sim_run).
Proof.
  apply (reprojected_crs Sim.lib Sim.deref Sim.ds_crs (fun c => c) []
           sim_non_mutating sim_reproject_sets_crs sim_crs_accessor_sound).
  eexists. vm_compute. reflexivity.
Defined.

(** ** The CRS after resampling (claim C8) *)

(** Claim C8.  The resampling step reads [rio.crs] from the loaded dataset
    and passes that very value to [rio.reproject] as the target, together
    with the resolution.  So, with a library as in claim C9 that reads a
    recorded CRS back as itself, the dataset bound to [resampled_data]
    records at the end of a completed run the CRS that [data] records. *)
Theorem resampling_keeps_crs {W D : Type} (lib : action -> W -> result * W)
  (peek : W -> value -> option D) (crs : D -> value)
  (crs_from_user_input : value -> value) (w : W) :
  non_mutating lib peek ->
  reproject_sets_crs lib peek crs crs_from_user_input ->
  crs_accessor_sound lib peek crs ->
  crs_is_canonical peek crs crs_from_user_input ->
  let r := interp lib notebook w in
  completed r ->
  exists data resampled_data target d1 d2,
    lookup "data" (final_ns r) = Some data /\
    lookup "resampled_data" (final_ns r) = Some resampled_data /\
    In (GetAttr data "rio.crs", Ok target) (calls r) /\
    In (Invoke "rio.reproject" [data; target]
          [("resolution", VTuple [VInt 1000; VInt 1000])],
        Ok resampled_data) (calls r) /\
    peek (final r) data = Some d1 /\
    peek (final r) resampled_data = Some d2 /\
    crs d2 = crs d1.
Proof.
  intros Hnm Hrep Hacc Hcan r Hc; subst r.
  pose proof (step_at lib w) as Step.
  pose proof (kept lib peek w Hnm) as Kept.
  pose proof (final_world lib w) as Hfin.
  open_run lib w Hc r Hr vs Hact Hans Hns.
  all: pose proof (Step 36 _ _ ltac:(action_at Hact) ltac:(action_at Hans))
         as S36.
  all: pose proof (Step 37 _ _ ltac:(action_at Hact) ltac:(action_at Hans))
         as S37.
  all: pose proof (Hacc _ (world_at r w 36) _ ltac:(rewrite S36; reflexivity))
         as [d1 [Hd1 Hcrs1]].
  all: pose proof (Hrep _ _ _ (world_at r w 37) _
                     ltac:(rewrite S37; reflexivity))
         as [d2 [Hd2 Hcrs2]]; rewrite S37 in Hd2; cbn [snd] in Hd2.
  all: pose proof (Hcan _ _ _ Hd1) as Hid.
  all: assert (Hlen : length (log r) = 69)
         by (rewrite <- (length_map ev_action); fold (actions r);
             rewrite Hact; reflexivity).
  all: rewrite Hlen in Hfin.
  all: rewrite calls_combine, Hact, Hans, <- Hns.
  all: do 3 eexists; exists d1, d2.
  all: do 2 (split; [ reflexivity | ]).
  all: split; [ now apply (nth_error_In _ 36) | ].
  all: split; [ now apply (nth_error_In _ 37) | ].
  all: split; [ rewrite Hfin; apply (Kept 36); [ lia | exact Hd1 ] | ].
  all: split; [ rewrite Hfin; apply (Kept 38); [ lia | exact Hd2 ] | ].
  all: congruence.
Qed.

Lemma resampling_keeps_crs_witness :
  exists data resampled_data target d1 d2,
    lookup "data" (final_ns sim_run) = Some data /\
    lookup "resampled_data" (final_ns sim_run) = Some resampled_data /\
    In (GetAttr data "rio.crs", Ok target) (calls sim_run) /\
    In (Invoke "rio.reproject" [data; target]
          [("resolution", VTuple [VInt 1000; VInt 1000])],
        Ok resampled_data) (calls sim_run) /\
    Sim.deref (final sim_run) data = Some d1 /\
    Sim.deref (final sim_run) resampled_data = Some d2 /\
    Sim.ds_crs d2 = Sim.ds_crs d1.
Proof.
  apply (resampling_keeps_crs Sim.lib Sim.deref Sim.ds_crs (fun c => c) []
           sim_non_mutating sim_reproject_sets_crs sim_crs_accessor_sound
           sim_crs_is_canonical).
  eexists. vm_compute. reflexivity.
Defined.

(** ** Selection by a descending slice (claim C10) *)

Module LabelSliceFacts.

Import LabelSlice.

Lemma Qle_bool_false (x y : Q) : Qle_bool x y = false <-> (y < x)%Q.
Proof.
  split; intro H.
  - apply Qnot_le_lt. intro L. apply Qle_bool_iff in L. congruence.
  - destruct (Qle_bool x y) eqn:E; [ | reflexivity ].
    apply Qle_bool_iff in E. lra.
Qed.

Ltac qbool :=
  repeat match goal with
  | H : Qle_bool _ _ = true |- _ => apply Qle_bool_iff in H
  | H : Qle_bool _ _ = false |- _ => apply Qle_bool_false in H
  | H : Qeq_bool _ _ = true |- _ => apply Qeq_bool_iff in H
  | H : Qeq_bool _ _ = false |- _ => apply Qeq_bool_neq in H
  | |- Qle_bool _ _ = true => apply Qle_bool_iff
  | |- Qle_bool _ _ = false => apply Qle_bool_false
  end.

Lemma decreasing_tail (y : Q) (rest : list Q) :
  strictly_decreasing (y :: rest) -> strictly_decreasing rest.
Proof. destruct rest; cbn; tauto. Qed.

Lemma decreasing_below (y : Q) (rest : list Q) :
  strictly_decreasing (y :: rest) -> Forall (fun z => (z < y)%Q) rest.
Proof.
  revert y; induction rest as [ | b rest IH]; intros y H; constructor.
  - apply H.
  - destruct H as [Hb H]. specialize (IH b H).
    eapply Forall_impl; [ | exact IH ]. cbn. intros z Hz. lra.
Qed.

Lemma filter_none (f : Q -> bool) (l : list Q) :
  Forall (fun z => f z = false) l -> filter f l = [].
Proof.
  induction 1 as [ | z l Hz _ IH]; cbn; [ reflexivity | ].
  now rewrite Hz.
Qed.

Lemma filter_all (f : Q -> bool) (l : list Q) :
  Forall (fun z => f z = true) l -> filter f l = l.
Proof.
  induction 1 as [ | z l Hz _ IH]; cbn; [ reflexivity | ].
  now rewrite Hz, IH.
Qed.

Lemma count_complement (f : Q -> bool) (l : list Q) :
  count f l + count (fun y => negb (f y)) l = length l.
Proof.
  unfold count. induction l as [ | y l IH]; cbn; [ reflexivity | ].
  destruct (f y); cbn; lia.
Qed.

Lemma count_rev (f : Q -> bool) (l : list Q) : count f (rev l) = count f l.
Proof.
  unfold count. induction l as [ | y l IH]; cbn; [ reflexivity | ].
  rewrite filter_app, length_app, IH. cbn. destruct (f y); cbn; lia.
Qed.

Lemma searchsorted_le (a : list Q) (v : Q) (s : side) :
  searchsorted a v s <= length a.
Proof. induction a as [ | y a IH]; cbn; [ lia | ]. destruct sorts_before; lia. Qed.

Lemma searchsorted_snoc (a : list Q) (y v : Q) (s : side) :
  searchsorted (a ++ [y]) v s =
  if Nat.eqb (searchsorted a v s) (length a)
  then (if sorts_before s v y then S (length a) else length a)
  else searchsorted a v s.
Proof.
  induction a as [ | z a IH]; cbn.
  - destruct sorts_before; reflexivity.
  - destruct (sorts_before s v z); [ | reflexivity ].
    rewrite IH. cbn.
    destruct (Nat.eqb (searchsorted a v s) (length a)); [ | reflexivity ].
    destruct sorts_before; reflexivity.
Qed.

(** On the reverse of a decreasing index the insertion point is a count. *)
Lemma searchsorted_rev (ys : list Q) (v : Q) (s : side) :
  strictly_decreasing ys ->
  searchsorted (rev ys) v s = count (sorts_before s v) ys.
Proof.
  induction ys as [ | y rest IH]; intro H; [ reflexivity | ].
  pose proof (decreasing_below _ _ H) as Hbelow.
  specialize (IH (decreasing_tail _ _ H)).
  cbn [rev]. rewrite searchsorted_snoc, IH, length_rev.
  unfold count in *. cbn [filter].
  destruct (sorts_before s v y) eqn:Ey.
  - assert (Hall : Forall (fun z => sorts_before s v z = true) rest).
    { eapply Forall_impl; [ | exact Hbelow ]. cbn. intros z Hz.
      destruct s; cbn in *.
      - apply negb_true_iff in Ey. apply negb_true_iff. qbool. lra.
      - qbool. lra. }
    rewrite (filter_all _ _ Hall), Nat.eqb_refl. reflexivity.
  - destruct (Nat.eqb_spec (length (filter (sorts_before s v) rest))
                (length rest)); congruence.
Qed.

Lemma decreasing_not_increasing (ys : list Q) :
  strictly_decreasing ys -> 2 <= length ys ->
  is_monotonic_increasing ys = false.
Proof.
  destruct ys as [ | a [ | b rest]]; cbn; try lia.
  intros [H _] _. apply andb_false_iff. left. qbool. exact H.
Qed.

Lemma decreasing_is_monotonic (ys : list Q) :
  strictly_decreasing ys -> is_monotonic_decreasing ys = true.
Proof.
  induction ys as [ | a rest IH]; [ reflexivity | ].
  destruct rest as [ | b rest]; [ reflexivity | ].
  intros [H Hrest]. cbn [is_monotonic_decreasing].
  apply andb_true_iff. split; [ qbool; lra | apply IH, Hrest ].
Qed.

Lemma get_loc_decreasing (ys : list Q) (v : Q) (i : nat) :
  strictly_decreasing ys -> get_loc ys v = Some i ->
  i = count (above v) ys /\ S i = count (at_least v) ys.
Proof.
  revert i; induction ys as [ | y rest IH]; intros i H G; [ discriminate G | ].
  pose proof (decreasing_below _ _ H) as Hbelow.
  cbn in G. unfold count, above, at_least in *. cbn [filter].
  destruct (Qeq_bool y v) eqn:E.
  - injection G as <-. qbool.
    assert (Hy1 : Qle_bool y v = true) by (qbool; lra).
    assert (Hy2 : Qle_bool v y = true) by (qbool; lra).
    rewrite Hy1, Hy2. cbn.
    rewrite !filter_none; [ auto | | ].
    + eapply Forall_impl; [ | exact Hbelow ]. cbn. intros z Hz. qbool. lra.
    + eapply Forall_impl; [ | exact Hbelow ]. cbn. intros z Hz.
      apply negb_false_iff. qbool. lra.
  - destruct (get_loc rest v) as [i' | ] eqn:G'; [ | discriminate G ].
    injection G as <-.
    destruct (IH i' (decreasing_tail _ _ H) eq_refl) as [I1 I2].
    assert (Hv : (v < y)%Q).
    { assert (Hin : exists z, In z rest /\ (z == v)%Q).
      { clear - G'. revert i' G'. induction rest as [ | z rest IHr]; intros i' G';
          [ discriminate G' | ]. cbn in G'.
        destruct (Qeq_bool z v) eqn:Ez.
        - exists z. split; [ now left | now apply Qeq_bool_iff ].
        - destruct (get_loc rest v) as [k | ]; [ | discriminate G' ].
          destruct (IHr k eq_refl) as [z' [Hz' Hq]]. exists z'. split; [ now right | exact Hq ]. }
      destruct Hin as [z [Hz Hq]].
      rewrite Forall_forall in Hbelow. specialize (Hbelow z Hz). lra. }
    assert (Hy1 : Qle_bool y v = false) by (qbool; lra).
    assert (Hy2 : Qle_bool v y = true) by (qbool; lra).
    rewrite Hy1, Hy2. cbn. lia.
Qed.

Lemma bound_left (ys : list Q) (v : Q) :
  strictly_decreasing ys -> 2 <= length ys ->
  get_slice_bound ys v Left = Some (count (above v) ys).
Proof.
  intros H L. unfold get_slice_bound.
  destruct (get_loc ys v) as [i | ] eqn:G.
  - destruct (get_loc_decreasing ys v i H G) as [-> _]. reflexivity.
  - unfold searchsorted_monotonic.
    rewrite decreasing_not_increasing, decreasing_is_monotonic by assumption.
    f_equal. rewrite searchsorted_rev by assumption. cbn [flip].
    pose proof (count_complement (sorts_before Right v) ys) as C.
    change (count (fun y => negb (sorts_before Right v y)) ys)
      with (count (above v) ys) in C.
    lia.
Qed.

Lemma bound_right (ys : list Q) (v : Q) :
  strictly_decreasing ys -> 2 <= length ys ->
  get_slice_bound ys v Right = Some (count (at_least v) ys).
Proof.
  intros H L. unfold get_slice_bound.
  destruct (get_loc ys v) as [i | ] eqn:G.
  - destruct (get_loc_decreasing ys v i H G) as [_ ->]. reflexivity.
  - unfold searchsorted_monotonic.
    rewrite decreasing_not_increasing, decreasing_is_monotonic by assumption.
    f_equal. rewrite searchsorted_rev by assumption. cbn [flip].
    pose proof (count_complement (at_least v) ys) as C.
    change (count (sorts_before Left v) ys)
      with (count (fun y => negb (at_least v y)) ys).
    lia.
Qed.

Lemma islice_range (ys : list Q) (lo hi : Q) :
  strictly_decreasing ys ->
  islice ys (count (above hi) ys) (count (at_least lo) ys)
  = filter (in_range lo hi) ys.
Proof.
  induction ys as [ | y rest IH]; intro H; [ reflexivity | ].
  pose proof (decreasing_below _ _ H) as Hbelow.
  specialize (IH (decreasing_tail _ _ H)).
  unfold islice, count, above, at_least, in_range in *. cbn [filter].
  destruct (Qle_bool y hi) eqn:Ehi, (Qle_bool lo y) eqn:Elo; cbn [negb andb length].
  - (* lo <= y <= hi *)
    assert (Z : filter (fun z => negb (Qle_bool z hi)) rest = []).
    { apply filter_none. eapply Forall_impl; [ | exact Hbelow ]. cbn.
      intros z Hz. apply negb_false_iff. qbool. lra. }
    rewrite Z in *. cbn in *. rewrite Nat.sub_0_r in IH. now rewrite IH.
  - (* y < lo, y <= hi *)
    assert (Z1 : filter (fun z => negb (Qle_bool z hi)) rest = []).
    { apply filter_none. eapply Forall_impl; [ | exact Hbelow ]. cbn.
      intros z Hz. apply negb_false_iff. qbool. lra. }
    assert (Z2 : filter (fun z => Qle_bool lo z) rest = []).
    { apply filter_none. eapply Forall_impl; [ | exact Hbelow ]. cbn.
      intros z Hz. qbool. lra. }
    assert (Z3 : filter (fun z => Qle_bool lo z && Qle_bool z hi) rest = []).
    { apply filter_none. eapply Forall_impl; [ | exact Hbelow ]. cbn.
      intros z Hz. apply andb_false_iff. left. qbool. lra. }
    rewrite Z1, Z2, Z3. reflexivity.
  - (* hi < y, lo <= y *)
    cbn. exact IH.
  - (* hi < y < lo *)
    assert (Z2 : filter (fun z => Qle_bool lo z) rest = []).
    { apply filter_none. eapply Forall_impl; [ | exact Hbelow ]. cbn.
      intros z Hz. qbool. lra. }
    assert (Z3 : filter (fun z => Qle_bool lo z && Qle_bool z hi) rest = []).
    { apply filter_none. eapply Forall_impl; [ | exact Hbelow ]. cbn.
      intros z Hz. apply andb_false_iff. left. qbool. lra. }
    rewrite Z2, Z3. reflexivity.
Qed.

Lemma sel_slice_decreasing (ys : list Q) (start stop : Q) :
  strictly_decreasing ys -> 2 <= length ys ->
  sel_slice ys start stop = Some (filter (in_range stop start) ys).
Proof.
  intros H L. unfold sel_slice, slice_locs.
  rewrite bound_left, bound_right by assumption.
  now rewrite islice_range.
Qed.

Lemma empty_range (ys : list Q) (lo hi : Q) :
  (lo < hi)%Q -> filter (in_range hi lo) ys = [].
Proof.
  intro H. apply filter_none, Forall_forall. intros z _.
  unfold in_range. destruct (Qle_bool hi z) eqn:E1; [ | reflexivity ].
  cbn. qbool. lra.
Qed.

End LabelSliceFacts.

(** Claim C10 as stated fails for a dataset of one row, whose coordinate is
    decreasing for want of a second label: its index counts as increasing,
    so the slice from [max_y] down to [min_y] selects nothing although the
    row lies in the range, and the slice from [min_y] up to [max_y] selects
    the row. *)
Lemma single_row_counterexample :
  ~ (forall ys : list Q,
        LabelSlice.strictly_decreasing ys ->
        LabelSlice.sel_slice ys max_y min_y
        = Some (filter (LabelSlice.in_range min_y max_y) ys) /\
        LabelSlice.sel_slice ys min_y max_y = Some []).
Proof.
  intro H. destruct (H [362 # 10]%Q I) as [H1 _].
  vm_compute in H1. discriminate H1.
Qed.

(** Claim C10, amended.  Cell 25 selects on [data_reprojected] with the
    [y] slice running from [max_y] down to [min_y], and [min_y < max_y].
    For every coordinate of at least two strictly decreasing labels, that
    slice keeps exactly the rows with [min_y <= y <= max_y], in their
    order, so it is non-empty exactly when some row lies in that range;
    and the slice from [min_y] up to [max_y] keeps no row. *)
Theorem descending_slice_selects_range {W : Type}
  (lib : action -> W -> result * W) (w : W) (ys : list Q) :
  let r := interp lib notebook w in
  completed r ->
  LabelSlice.strictly_decreasing ys ->
  2 <= length ys ->
  (exists data_reprojected subset,
      lookup "data_reprojected" (final_ns r) = Some data_reprojected /\
      lookup "subset" (final_ns r) = Some subset /\
      In (Invoke "sel" [data_reprojected]
            [("x", VSlice (VFloat min_x) (VFloat max_x));
             ("y", VSlice (VFloat max_y) (VFloat min_y))],
          Ok subset) (calls r)) /\
  (min_y < max_y)%Q /\
  LabelSlice.sel_slice ys max_y min_y
  = Some (filter (LabelSlice.in_range min_y max_y) ys) /\
  (forall y, In y (filter (LabelSlice.in_range min_y max_y) ys) <->
             In y ys /\ (min_y <= y)%Q /\ (y <= max_y)%Q) /\
  LabelSlice.sel_slice ys min_y max_y = Some [].
Proof.
  intros r Hc Hdec Hlen. subst r.
  split; [ | split; [ reflexivity | split; [ | split ] ] ].
  - open_run lib w Hc r Hr vs Hact Hans Hns.
    all: rewrite calls_combine, Hact, Hans, <- Hns.
    all: do 2 eexists.
    all: do 2 (split; [ reflexivity | ]).
    all: now apply (nth_error_In _ 40).
  - apply LabelSliceFacts.sel_slice_decreasing; assumption.
  - intro y. rewrite filter_In. unfold LabelSlice.in_range.
    rewrite andb_true_iff, !Qle_bool_iff. tauto.
  - rewrite LabelSliceFacts.sel_slice_decreasing by assumption.
    rewrite LabelSliceFacts.empty_range; reflexivity.
Qed.

Lemma descending_slice_selects_range_witness :
  LabelSlice.sel_slice [37 # 1; 362 # 10; 35 # 1]%Q max_y min_y
  = Some (filter (LabelSlice.in_range min_y max_y) [37 # 1; 362 # 10; 35 # 1]%Q)
  /\ LabelSlice.sel_slice [37 # 1; 362 # 10; 35 # 1]%Q min_y max_y = Some [].
Proof.
  destruct (descending_slice_selects_range Sim.lib []
              [37 # 1; 362 # 10; 35 # 1]%Q sim_completed)
    as (_ & _ & H1 & _ & H2).
  - cbn. repeat split; reflexivity.
  - cbn. lia.
  - split; assumption.
Defined.

(** * Further properties of the cells *)

(** ** Which names a cell reads and binds *)

Section Sequencing.

Context {W : Type} (lib : action -> W -> result * W).

(** The outcome of a sequence: the first part's exception, or else the
    outcome of the second part, started in the world the first one left. *)
Lemma out_pbind {A B : Type} (p : prog A) (f : A -> prog B) (w : W) :
  out (interp lib (pbind p f) w) =
  match out (interp lib p w) with
  | Done a => out (interp lib (f a) (final (interp lib p w)))
  | Failed e => Failed e
  end.
Proof.
  revert w. induction p as [a | e | a k IH]; intro w; cbn; auto.
Qed.

Lemma out_bind {A B : Type} (m : nb A) (f : A -> nb B) (ns : namespace)
  (w : W) :
  out (interp lib (bind m f ns) w) =
  match out (interp lib (m ns) w) with
  | Done (a, ns1) => out (interp lib (f a ns1) (final (interp lib (m ns) w)))
  | Failed e => Failed e
  end.
Proof.
  unfold bind. rewrite out_pbind.
  destruct (out (interp lib (m ns) w)) as [[a ns1] | e]; reflexivity.
Qed.

End Sequencing.

Lemma lookup_app (x : string) (new ns : namespace) :
  lookup x (new ++ ns) =
  match lookup x new with
  | Some v => Some v
  | None => lookup x ns
  end.
Proof.
  induction new as [ | [y v] new IH]; cbn; [ reflexivity | ].
  destruct (String.eqb x y); [ reflexivity | exact IH ].
Qed.

Lemma lookup_none (x : string) (ns : namespace) :
  lookup x ns = None <-> ~ In x (map fst ns).
Proof.
  induction ns as [ | [y v] ns IH]; cbn; [ tauto | ].
  destruct (String.eqb_spec x y) as [-> | N].
  - split; [ discriminate | intro H; elim H; now left ].
  - rewrite IH. split; [ intros H [E | I]; [ now elim N | now elim H ] | tauto ].
Qed.

Lemma mem_In (x : string) (l : list string) : mem x l = true <-> In x l.
Proof.
  unfold mem. rewrite existsb_exists. split.
  - intros [y [I E]]. apply String.eqb_eq in E. now subst.
  - intro I. exists x. split; [ exact I | apply String.eqb_refl ].
Qed.

(** *** The namespace after a computation *)

Lemma writes_ret {A : Type} (a : A) : writes (ret a) [].
Proof.
  intros W lib w ns a' ns' H. cbn in H. injection H as _ <-.
  now exists [].
Qed.

Lemma writes_throw {A : Type} (e : exn) (ws : list string) :
  writes (@throw A e) ws.
Proof. intros W lib w ns a ns' H. discriminate H. Qed.

Lemma writes_assign (x : string) (v : value) : writes (assign x v) [x].
Proof.
  intros W lib w ns a ns' H. cbn in H. injection H as _ <-.
  now exists [(x, v)].
Qed.

Lemma writes_name (x : string) : writes (name x) [].
Proof.
  intros W lib w ns a ns' H. unfold name in H.
  destruct (lookup x ns); [ | discriminate H ].
  cbn in H. injection H as _ <-. now exists [].
Qed.

Lemma writes_perform (a : action) : writes (perform a) [].
Proof.
  intros W lib w ns v ns' H. cbn in H.
  destruct (fst (lib a w)); [ | discriminate H ].
  cbn in H. injection H as _ <-. now exists [].
Qed.

Lemma writes_modcall (m : value) (f : string) (args : list value)
  (kw : kwargs) : writes (modcall m f args kw) [].
Proof. destruct m; apply writes_perform. Qed.

Lemma writes_star (v : value) : writes (star v) [].
Proof.
  unfold star. destruct (items v);
    first [ apply writes_ret | apply writes_throw ].
Qed.

Lemma writes_unpack2 (v : value) : writes (unpack2 v) [].
Proof.
  unfold unpack2. destruct (items v) as [[ | a [ | b [ | c l]]] | ];
    first [ apply writes_ret | apply writes_throw ].
Qed.

Lemma writes_bind {A B : Type} (m : nb A) (f : A -> nb B)
  (ws1 ws2 ws : list string) :
  writes m ws1 -> (forall a, writes (f a) ws2) -> ws = ws1 ++ ws2 ->
  writes (bind m f) ws.
Proof.
  intros H1 H2 -> W lib w ns b ns' H. rewrite out_bind in H.
  destruct (out (interp lib (m ns) w)) as [[a ns1] | e] eqn:E;
    [ | discriminate H ].
  destruct (H1 _ _ _ _ _ _ E) as [new1 [-> M1]].
  destruct (H2 a _ _ _ _ _ _ H) as [new2 [-> M2]].
  exists (new2 ++ new1). split; [ apply app_assoc | ].
  now rewrite map_app, M1, M2, rev_app_distr.
Qed.

(** The bindings of the names [B] and of the names just bound are there
    after the computation. *)
Lemma bound_after (B ws : list string) (new ns : namespace) :
  (forall x, In x B -> bound x ns) -> map fst new = rev ws ->
  forall x, In x (ws ++ B) -> bound x (new ++ ns).
Proof.
  intros HB M x I. unfold bound. rewrite lookup_app.
  destruct (lookup x new) eqn:E; [ discriminate | ].
  apply in_app_or in I. destruct I as [I | I]; [ | now apply HB ].
  apply lookup_none in E. elim E. rewrite M. now apply in_rev in I.
Qed.

(** A name that was unbound and is not among those bound stays unbound. *)
Lemma unbound_after (ws : list string) (new ns : namespace) (x : string) :
  lookup x ns = None -> map fst new = rev ws -> ~ In x ws ->
  lookup x (new ++ ns) = None.
Proof.
  intros N M I. rewrite lookup_app.
  destruct (lookup x new) eqn:E; [ | exact N ].
  assert (H : lookup x new <> None) by congruence.
  rewrite lookup_none in H. elim H. intro J. apply I.
  rewrite M in J. now apply in_rev.
Qed.

(** *** Reading only bound names *)

Lemma safe_ret {A : Type} (B : list string) (a : A) : safe B (ret a).
Proof. intros W lib w ns _ n. discriminate. Qed.

Lemma safe_throw_type {A : Type} (B : list string) (s : string) :
  safe B (@throw A (TypeError s)).
Proof. intros W lib w ns _ n. discriminate. Qed.

Lemma safe_throw_value {A : Type} (B : list string) (s : string) :
  safe B (@throw A (ValueError s)).
Proof. intros W lib w ns _ n. discriminate. Qed.

Lemma safe_assign (B : list string) (x : string) (v : value) :
  safe B (assign x v).
Proof. intros W lib w ns _ n. discriminate. Qed.

Lemma safe_name (B : list string) (x : string) : In x B -> safe B (name x).
Proof.
  intros I W lib w ns HB n. unfold name.
  destruct (lookup x ns) eqn:E; [ discriminate | ].
  now elim (HB x I).
Qed.

Lemma safe_perform (B : list string) (a : action) : safe B (perform a).
Proof.
  intros W lib w ns _ n. cbn. destruct (fst (lib a w)); discriminate.
Qed.

Lemma safe_modcall (B : list string) (m : value) (f : string)
  (args : list value) (kw : kwargs) : safe B (modcall m f args kw).
Proof. destruct m; apply safe_perform. Qed.

Lemma safe_star (B : list string) (v : value) : safe B (star v).
Proof.
  unfold star. destruct (items v);
    first [ apply safe_ret | apply safe_throw_type ].
Qed.

Lemma safe_unpack2 (B : list string) (v : value) : safe B (unpack2 v).
Proof.
  unfold unpack2. destruct (items v) as [[ | a [ | b [ | c l]]] | ];
    first [ apply safe_ret | apply safe_throw_type | apply safe_throw_value ].
Qed.

Lemma safe_bind {A C : Type} (B ws : list string) (m : nb A) (f : A -> nb C) :
  safe B m -> writes m ws -> (forall a, safe (ws ++ B) (f a)) ->
  safe B (bind m f).
Proof.
  intros H1 Hw H2 W lib w ns HB n. rewrite out_bind.
  destruct (out (interp lib (m ns) w)) as [[a ns1] | e] eqn:E.
  - destruct (Hw _ _ _ _ _ _ E) as [new [-> M]].
    apply H2. now apply bound_after.
  - specialize (H1 _ lib w ns HB n). congruence.
Qed.

(** *** Needing a name *)

Lemma needs_name (x : string) : needs x (name x).
Proof.
  intros W lib w ns N [a H]. unfold name in H. rewrite N in H. discriminate H.
Qed.

Lemma needs_first {A C : Type} (x : string) (m : nb A) (f : A -> nb C) :
  needs x m -> needs x (bind m f).
Proof.
  intros H W lib w ns N [b Hb]. rewrite out_bind in Hb.
  destruct (out (interp lib (m ns) w)) as [[a ns1] | e] eqn:E;
    [ | discriminate Hb ].
  apply (H _ lib w ns N). now exists (a, ns1).
Qed.

Lemma needs_later {A C : Type} (x : string) (ws : list string) (m : nb A)
  (f : A -> nb C) :
  writes m ws -> ~ In x ws -> (forall a, needs x (f a)) ->
  needs x (bind m f).
Proof.
  intros Hw I H W lib w ns N [b Hb]. rewrite out_bind in Hb.
  destruct (out (interp lib (m ns) w)) as [[a ns1] | e] eqn:E;
    [ | discriminate Hb ].
  destruct (Hw _ _ _ _ _ _ E) as [new [-> M]].
  apply (H a _ lib (final (interp lib (m ns) w)) (new ++ ns)).
  - now apply unbound_after with ws.
  - now exists b.
Qed.

(** The statements of a cell, down to the primitive ones. *)
Ltac open_cell :=
  cbv [cell_1 cell_3 cell_5 cell_7 cell_8 cell_9 cell_11 cell_12 cell_14
       cell_16 cell_17 cell_19 cell_20 cell_22 cell_23 cell_25 cell_27
       cell_29 cell_31 cell_33 exercise_cell print_attr show_shape plot_rgb
       import_as method getattr print echo
       cell_body cell_reads cell_binds].

Ltac writes_tac :=
  first
    [ apply writes_ret | apply writes_assign | apply writes_name
    | apply writes_perform | apply writes_modcall | apply writes_star
    | apply writes_unpack2
    | eapply writes_bind; [ writes_tac | intro; writes_tac | reflexivity ] ].

Ltac safe_tac :=
  first
    [ apply safe_ret | apply safe_assign | apply safe_perform
    | apply safe_modcall | apply safe_star | apply safe_unpack2
    | apply safe_name; cbn; tauto
    | eapply safe_bind; [ safe_tac | writes_tac | intro; safe_tac ] ].

Ltac needs_tac :=
  first
    [ apply needs_name
    | apply needs_first; needs_tac
    | eapply needs_later;
      [ writes_tac
      | cbn; intuition discriminate
      | intro; needs_tac ] ].

Lemma table_writes (c : cell_names) :
  In c cell_table -> writes (cell_body c) (cell_binds c).
Proof.
  intro H. cbv [cell_table In] in H.
  repeat (destruct H as [<- | H]; [ open_cell; writes_tac | ]).
  elim H.
Qed.

Lemma table_safe (c : cell_names) :
  In c cell_table -> safe (cell_reads c) (cell_body c).
Proof.
  intro H. cbv [cell_table In] in H.
  repeat (destruct H as [<- | H]; [ open_cell; safe_tac | ]).
  elim H.
Qed.

Lemma table_needs (c : cell_names) (x : string) :
  In c cell_table -> In x (cell_reads c) -> needs x (cell_body c).
Proof.
  intros H I. cbv [cell_table In] in H.
  repeat (destruct H as [<- | H];
          [ cbn in I;
            repeat (destruct I as [<- | I]; [ open_cell; needs_tac | ]);
            elim I | ]).
  elim H.
Qed.

(** *** Sequences of cells *)

Lemma forallb_false_ex {A : Type} (f : A -> bool) (l : list A) :
  forallb f l = false -> exists x, In x l /\ f x = false.
Proof.
  induction l as [ | y l IH]; cbn; [ discriminate | ].
  destruct (f y) eqn:E; cbn.
  - intro H. destruct (IH H) as [x [I F]]. exists x. auto.
  - intros _. exists y. auto.
Qed.

Lemma table_cells : map cell_body cell_table = cells.
Proof. reflexivity. Qed.

Lemma drop_map {A B : Type} (f : A -> B) (k : nat) (l : list A) :
  drop k (map f l) = map f (drop k l).
Proof. unfold drop. now rewrite map_app, firstn_map, skipn_map. Qed.

Lemma incl_firstn {A : Type} (k : nat) (l : list A) : incl (firstn k l) l.
Proof.
  intros x I. rewrite <- (firstn_skipn k l). apply in_or_app. now left.
Qed.

Lemma incl_drop {A : Type} (k : nat) (l : list A) : incl (drop k l) l.
Proof.
  intros x I. unfold drop in I. apply in_app_or in I. destruct I as [I | I].
  - now apply (incl_firstn k).
  - rewrite <- (firstn_skipn (S k) l). apply in_or_app. now right.
Qed.

Lemma well_ordered_firstn (k : nat) (cs : list cell_names) (B : list string) :
  well_ordered B cs = true -> well_ordered B (firstn k cs) = true.
Proof.
  revert B cs. induction k as [ | k IH]; intros B [ | c cs]; cbn; auto.
  intro H. apply andb_true_iff in H as [H1 H2].
  rewrite H1. cbn. now apply IH.
Qed.

Section Sequences.

Context {W : Type} (lib : action -> W -> result * W).

(** Cells run in an order in which each finds its names bound never raise
    [NameError]. *)
Lemma run_well_ordered (cs : list cell_names) :
  incl cs cell_table ->
  forall (B : list string) (ns : namespace) (w : W),
    well_ordered B cs = true ->
    (forall x, In x B -> bound x ns) ->
    no_name_error (interp lib (run_cells (map cell_body cs) ns) w).
Proof.
  induction cs as [ | c cs IH]; intros Hin B ns w Hwo HB n.
  - discriminate.
  - cbn [map run_cells]. rewrite out_bind.
    cbn in Hwo. apply andb_true_iff in Hwo as [Hr Hrest].
    assert (Hc : In c cell_table) by (apply Hin; now left).
    destruct (out (interp lib (cell_body c ns) w)) as [[[] ns1] | e] eqn:E.
    + destruct (table_writes c Hc _ _ _ _ _ _ E) as [new [-> M]].
      apply IH with (B := cell_binds c ++ B).
      * intros x I. apply Hin. now right.
      * exact Hrest.
      * now apply bound_after.
    + assert (S : no_name_error (interp lib (cell_body c ns) w)).
      { apply (table_safe c Hc). intros x I. apply HB, mem_In.
        rewrite forallb_forall in Hr. now apply Hr. }
      specialize (S n). congruence.
Qed.

(** Cells run in an order in which one of them finds a name unbound cannot
    complete. *)
Lemma run_ill_ordered (cs : list cell_names) :
  incl cs cell_table ->
  forall (B : list string) (ns : namespace) (w : W),
    well_ordered B cs = false ->
    (forall x, bound x ns -> In x B) ->
    ~ completed (interp lib (run_cells (map cell_body cs) ns) w).
Proof.
  induction cs as [ | c cs IH]; intros Hin B ns w Hwo HB [a Ha].
  - discriminate Hwo.
  - cbn [map run_cells] in Ha. rewrite out_bind in Ha.
    assert (Hc : In c cell_table) by (apply Hin; now left).
    destruct (out (interp lib (cell_body c ns) w)) as [[[] ns1] | e] eqn:E;
      [ | discriminate Ha ].
    cbn in Hwo. apply andb_false_iff in Hwo as [Hr | Hrest].
    + apply forallb_false_ex in Hr as [x [I F]].
      apply (table_needs c x Hc I _ lib w ns).
      * destruct (lookup x ns) eqn:L; [ | reflexivity ].
        assert (J : In x B) by (apply HB; unfold bound; congruence).
        apply mem_In in J. congruence.
      * now exists (tt, ns1).
    + destruct (table_writes c Hc _ _ _ _ _ _ E) as [new [-> M]].
      apply (IH (fun x I => Hin x (or_intror I)) (cell_binds c ++ B)
               (new ++ ns) (final (interp lib (cell_body c ns) w)) Hrest).
      * intros x Hx. apply in_or_app. unfold bound in Hx.
        rewrite lookup_app in Hx.
        destruct (lookup x new) eqn:L.
        -- left. apply in_rev. rewrite <- M.
           assert (N : lookup x new <> None) by congruence.
           rewrite lookup_none in N.
           destruct (in_dec string_dec x (map fst new)); tauto.
        -- right. now apply HB.
      * now exists a.
Qed.

End Sequences.

(** Which single cells the rest depends on. *)
Lemma drop_classify (k : nat) :
  well_ordered [] (drop k cell_table) = negb (existsb (Nat.eqb k) required).
Proof.
  do 25 (destruct k as [ | k]; [ vm_compute; reflexivity | ]).
  destruct k; vm_compute; reflexivity.
Qed.

(** Extra X1.  A cell only adds bindings.  Started in any namespace and
    run against any library, a cell that completes leaves that namespace
    under new bindings for exactly the names its statements assign, in the
    order of the statements; every other name reads as it did before. *)
Theorem cells_only_add_bindings {W : Type} (lib : action -> W -> result * W)
  (w : W) (c : cell_names) (ns ns' : namespace) :
  In c cell_table ->
  out (interp lib (cell_body c ns) w) = Done (tt, ns') ->
  (exists new, ns' = new ++ ns /\ map fst new = rev (cell_binds c)) /\
  (forall x, ~ In x (cell_binds c) -> lookup x ns' = lookup x ns).
Proof.
  intros Hc H.
  destruct (table_writes c Hc _ _ _ _ _ _ H) as [new [-> M]].
  split; [ now exists new | ].
  intros x I. rewrite lookup_app.
  destruct (lookup x new) eqn:L; [ | reflexivity ].
  assert (N : lookup x new <> None) by congruence.
  rewrite lookup_none in N. elim N. intro J. apply I.
  rewrite M in J. now apply in_rev.
Qed.

(** Cell 14, started where [data] is bound to a dataset, adds the binding
    of [data_reprojected]. *)
Lemma cells_only_add_bindings_witness :
  (exists new,
      [("data_reprojected", VObj 1); ("data", VObj 0)]
      = new ++ [("data", VObj 0)] /\
      map fst new = ["data_reprojected"]) /\
  (forall x, ~ In x ["data_reprojected"] ->
     lookup x [("data_reprojected", VObj 1); ("data", VObj 0)]
     = lookup x [("data", VObj 0)]).
Proof.
  apply (cells_only_add_bindings Sim.lib [Sim.Dataset Sim.utm11n]
           (Names cell_14 ["data"] ["data_reprojected"])
           [("data", VObj 0)]).
  - now apply (nth_error_In _ 8).
  - vm_compute. reflexivity.
Defined.

(** Extra X2.  A cell reads no global name outside its read set: started
    in any namespace that binds the names of its read set, and run against
    any library, no cell raises [NameError]. *)
Theorem cells_read_only_their_reads {W : Type}
  (lib : action -> W -> result * W) (w : W) (c : cell_names)
  (ns : namespace) :
  In c cell_table ->
  (forall x, In x (cell_reads c) -> bound x ns) ->
  no_name_error (interp lib (cell_body c ns) w).
Proof. intros Hc HB. now apply (table_safe c Hc). Qed.

Lemma cells_read_only_their_reads_witness :
  no_name_error
    (interp broken_lib
       (cell_27 [("data_reprojected", VObj 0); ("plt", VModule "matplotlib.pyplot")])
       tt).
Proof.
  apply (cells_read_only_their_reads broken_lib tt
           (Names cell_27 ["plt"; "data_reprojected"] [])).
  - now apply (nth_error_In _ 16).
  - intros x [<- | [<- | []]]; cbn; discriminate.
Defined.

(** Extra X3.  A cell needs every name of its read set: started in a
    namespace that leaves one of them unbound, no cell completes, whatever
    the library answers. *)
Theorem cells_need_their_reads {W : Type} (lib : action -> W -> result * W)
  (w : W) (c : cell_names) (x : string) (ns : namespace) :
  In c cell_table ->
  In x (cell_reads c) ->
  lookup x ns = None ->
  ~ completed (interp lib (cell_body c ns) w).
Proof. intros Hc I N. now apply (table_needs c x Hc I). Qed.

(** The overlay cell, run where the boundary has not been read. *)
Lemma cells_need_their_reads_witness :
  ~ completed
      (interp Sim.lib
         (cell_31 [("data", VObj 0); ("plt", VModule "matplotlib.pyplot")])
         [Sim.Dataset Sim.utm11n]).
Proof.
  apply (cells_need_their_reads Sim.lib [Sim.Dataset Sim.utm11n]
           (Names cell_31 ["plt"; "data"; "bounds"] ["fig"; "ax"]) "bounds").
  - now apply (nth_error_In _ 18).
  - cbn. tauto.
  - reflexivity.
Defined.

(** Extra X4.  Cells of the notebook executed in any order, any number of
    times, from an empty namespace: if each execution finds the names of
    its read set among those bound by the executions before it, the run
    never raises [NameError], against any library. *)
Theorem well_ordered_cells_find_their_names {W : Type}
  (lib : action -> W -> result * W) (w : W) (cs : list cell_names) :
  incl cs cell_table ->
  well_ordered [] cs = true ->
  no_name_error (interp lib (run_cells (map cell_body cs) []) w).
Proof.
  intros Hin Hwo. apply (run_well_ordered lib cs Hin [] [] w Hwo).
  intros x [].
Qed.

(** Running all cells a second time in the same kernel. *)
Lemma well_ordered_cells_find_their_names_witness :
  no_name_error (interp Sim.lib (run_cells (cells ++ cells) []) []).
Proof.
  apply (well_ordered_cells_find_their_names Sim.lib []
           (cell_table ++ cell_table)).
  - apply incl_app; apply incl_refl.
  - vm_compute. reflexivity.
Defined.

(** Extra X5.  Conversely, when some execution in such a sequence reads a
    name that no execution before it has bound, the run cannot complete,
    against any library. *)
Theorem ill_ordered_cells_cannot_complete {W : Type}
  (lib : action -> W -> result * W) (w : W) (cs : list cell_names) :
  incl cs cell_table ->
  well_ordered [] cs = false ->
  ~ completed (interp lib (run_cells (map cell_body cs) []) w).
Proof.
  intros Hin Hwo. apply (run_ill_ordered lib cs Hin [] [] w Hwo).
  intros x Hx. now elim Hx.
Qed.

(** Loading the raster before the imports have run. *)
Lemma ill_ordered_cells_cannot_complete_witness :
  ~ completed (interp Sim.lib (run_cells [cell_5; cell_3] []) []).
Proof.
  apply (ill_ordered_cells_cannot_complete Sim.lib []
           [Names cell_5 ["rioxarray"] ["url"; "data"];
            Names cell_3 [] ["rioxarray"; "xr"; "plt"]]).
  - intros c [<- | [<- | []]];
      [ now apply (nth_error_In _ 2) | now apply (nth_error_In _ 1) ].
  - reflexivity.
Defined.

(** Extra X6.  Running the notebook up to any cell never raises
    [NameError]: every initial segment of the cells reads only names that
    it has bound itself. *)
Theorem every_prefix_finds_its_names {W : Type}
  (lib : action -> W -> result * W) (w : W) (k : nat) :
  no_name_error (interp lib (run_cells (firstn k cells) []) w).
Proof.
  rewrite <- table_cells, firstn_map.
  apply (run_well_ordered lib (firstn k cell_table) (incl_firstn k _) [] [] w).
  - apply well_ordered_firstn. vm_compute. reflexivity.
  - intros x [].
Qed.

(** Extra X7.  The cells that cannot be skipped are cells 3, 5, 14, 16, 19
    and 22: with any one of them left out the run cannot complete, against
    any library; with any other single cell left out the run still never
    raises [NameError]. *)
Theorem cells_that_cannot_be_skipped {W : Type}
  (lib : action -> W -> result * W) (w : W) (k : nat) :
  let r := interp lib (run_cells (drop k cells) []) w in
  (In k required -> ~ completed r) /\
  (~ In k required -> no_name_error r).
Proof.
  intro r. subst r. rewrite <- table_cells, drop_map.
  pose proof (drop_classify k) as H.
  assert (E : existsb (Nat.eqb k) required = true <-> In k required).
  { rewrite existsb_exists. split.
    - intros [y [I Q]]. apply Nat.eqb_eq in Q. now subst.
    - intro I. exists k. split; [ exact I | apply Nat.eqb_refl ]. }
  split; intro I.
  - apply (run_ill_ordered lib _ (incl_drop k _) [] [] w).
    + rewrite H. apply E in I. now rewrite I.
    + intros x Hx. now elim Hx.
  - apply (run_well_ordered lib _ (incl_drop k _) [] [] w).
    + rewrite H. destruct (existsb (Nat.eqb k) required); [ | reflexivity ].
      elim I. now apply E.
    + intros x [].
Qed.

(** ** The requests of a run *)

(** Extra X8.  The notebook is a straight line: whatever the library
    answers, a run issues the requests of [script] in their order, from the
    first one on and up to the action at which it ends; a completed run
    issues all sixty-nine, and a run that ends earlier has failed. *)
Theorem requests_never_depend_on_answers {W : Type}
  (lib : action -> W -> result * W) (w : W) :
  let r := interp lib notebook w in
  map request_of (actions r) = firstn (length (log r)) script /\
  length (log r) <= 69 /\
  (completed r -> length (log r) = 69) /\
  (length (log r) < 69 -> exists x, out r = Failed x).
Proof.
  intro r. subst r.
  pose proof (requests_prefix lib w) as P.
  assert (C : completed (interp lib notebook w) ->
              length (log (interp lib notebook w)) = 69).
  { intros [a Ha].
    destruct (follows_completed lib _ _ notebook_follows_script w a Ha)
      as [vs [E L]].
    apply (f_equal (@length _)) in E. unfold answers in E.
    rewrite !length_map in E. rewrite E, L. reflexivity. }
  split; [ exact P | split; [ | split; [ exact C | ] ] ].
  - apply (f_equal (@length _)) in P. unfold actions in P.
    rewrite !length_map, length_firstn in P.
    change (length script) with 69 in P. lia.
  - intro L. destruct (out (interp lib notebook w)) as [a | x] eqn:E.
    + assert (H : length (log (interp lib notebook w)) = 69)
        by (apply C; now exists a).
      lia.
    + now exists x.
Qed.

(** ** What is printed, displayed and drawn *)

(** Extra X9.  In a completed run each of the six [print] calls prints the
    value that the read written inside it has just returned, and the
    display hook then receives what [print] returned: the dims, coords,
    attrs, CRS and transform of [data], and the CRS of
    [data_reprojected]. *)
Theorem prints_show_what_was_read {W : Type}
  (lib : action -> W -> result * W) (w : W) :
  let r := interp lib notebook w in
  completed r ->
  exists data data_reprojected,
    lookup "data" (final_ns r) = Some data /\
    lookup "data_reprojected" (final_ns r) = Some data_reprojected /\
    then_printed (calls r) (GetAttr data "dims") /\
    then_printed (calls r) (GetAttr data "coords") /\
    then_printed (calls r) (GetAttr data "attrs") /\
    then_printed (calls r) (GetAttr data "rio.crs") /\
    then_printed (calls r) (Invoke "rio.transform" [data] []) /\
    then_printed (calls r) (GetAttr data_reprojected "rio.crs") /\
    length (invocations "print" (calls r)) = 6.
Proof.
  intros r Hc; subst r. open_run lib w Hc r Hr vs Hact Hans Hns.
  all: rewrite calls_combine, Hact, Hans, <- Hns.
  all: do 2 eexists.
  all: do 2 (split; [ reflexivity | ]).
  all: split; [ exists 7; do 3 eexists; repeat split; reflexivity | ].
  all: split; [ exists 10; do 3 eexists; repeat split; reflexivity | ].
  all: split; [ exists 13; do 3 eexists; repeat split; reflexivity | ].
  all: split; [ exists 16; do 3 eexists; repeat split; reflexivity | ].
  all: split; [ exists 19; do 3 eexists; repeat split; reflexivity | ].
  all: split; [ exists 23; do 3 eexists; repeat split; reflexivity | ].
  all: reflexivity.
Qed.

Lemma prints_show_what_was_read_witness :
  exists data,
    lookup "data" (final_ns sim_run) = Some data /\
    then_printed (calls sim_run) (GetAttr data "rio.crs") /\
    length (invocations "print" (calls sim_run)) = 6.
Proof.
  destruct (prints_show_what_was_read Sim.lib [] sim_completed)
    as (data & dr & H).
  exists data. tauto.
Defined.

(** Extra X10.  In a completed run the four shapes displayed are those of
    the four derived datasets: the shape of each of [clipped_data],
    [clipped_data2], [resampled_data] and [subset] is read and handed to
    the display hook, and no other shape is read. *)
Theorem shapes_of_the_derived_datasets {W : Type}
  (lib : action -> W -> result * W) (w : W) :
  let r := interp lib notebook w in
  completed r ->
  exists clipped_data clipped_data2 resampled_data subset,
    lookup "clipped_data" (final_ns r) = Some clipped_data /\
    lookup "clipped_data2" (final_ns r) = Some clipped_data2 /\
    lookup "resampled_data" (final_ns r) = Some resampled_data /\
    lookup "subset" (final_ns r) = Some subset /\
    shape_shown (calls r) clipped_data /\
    shape_shown (calls r) clipped_data2 /\
    shape_shown (calls r) resampled_data /\
    shape_shown (calls r) subset /\
    length (attribute_reads "shape" (calls r)) = 4.
Proof.
  intros r Hc; subst r. open_run lib w Hc r Hr vs Hact Hans Hns.
  all: rewrite calls_combine, Hact, Hans, <- Hns.
  all: do 4 eexists.
  all: do 4 (split; [ reflexivity | ]).
  all: split; [ exists 27; do 2 eexists; split; reflexivity | ].
  all: split; [ exists 34; do 2 eexists; split; reflexivity | ].
  all: split; [ exists 38; do 2 eexists; split; reflexivity | ].
  all: split; [ exists 41; do 2 eexists; split; reflexivity | ].
  all: reflexivity.
Qed.

Lemma shapes_of_the_derived_datasets_witness :
  exists subset,
    lookup "subset" (final_ns sim_run) = Some subset /\
    shape_shown (calls sim_run) subset /\
    length (attribute_reads "shape" (calls sim_run)) = 4.
Proof.
  destruct (shapes_of_the_derived_datasets Sim.lib [] sim_completed)
    as (cd & cd2 & rd & subset & H).
  exists subset. tauto.
Defined.

(** Extra X11.  In a completed run the two colour composites are drawn
    alike: cell 27 selects bands 4, 3, 2 of [data_reprojected] and cell 29
    the same bands of [clipped_data]; each selection is drawn by
    [plot.imshow] with [vmin=0, vmax=0.3], each on a figure of its own
    opened with [figsize=(8, 8)], and these are the first two of the three
    [plot.imshow] calls. *)
Theorem colour_composites_drawn_alike {W : Type}
  (lib : action -> W -> result * W) (w : W) :
  let r := interp lib notebook w in
  completed r ->
  exists data_reprojected clipped_data rgb1 rgb2 f1 f2 a1 a2 third,
    lookup "data_reprojected" (final_ns r) = Some data_reprojected /\
    lookup "clipped_data" (final_ns r) = Some clipped_data /\
    invocations "matplotlib.pyplot.figure" (calls r) =
      [(Invoke "matplotlib.pyplot.figure" []
          [("figsize", VTuple [VInt 8; VInt 8])], Ok f1);
       (Invoke "matplotlib.pyplot.figure" []
          [("figsize", VTuple [VInt 8; VInt 8])], Ok f2)] /\
    In (Invoke "sel" [data_reprojected]
          [("band", VList [VInt 4; VInt 3; VInt 2])], Ok rgb1) (calls r) /\
    In (Invoke "sel" [clipped_data]
          [("band", VList [VInt 4; VInt 3; VInt 2])], Ok rgb2) (calls r) /\
    invocations "plot.imshow" (calls r) =
      [(Invoke "plot.imshow" [rgb1]
          [("vmin", VInt 0); ("vmax", VFloat (3 # 10))], Ok a1);
       (Invoke "plot.imshow" [rgb2]
          [("vmin", VInt 0); ("vmax", VFloat (3 # 10))], Ok a2);
       third].
Proof.
  intros r Hc; subst r. open_run lib w Hc r Hr vs Hact Hans Hns.
  all: rewrite calls_combine, Hact, Hans, <- Hns.
  all: do 9 eexists.
  all: do 3 (split; [ reflexivity | ]).
  all: split; [ now apply (nth_error_In _ 44) | ].
  all: split; [ now apply (nth_error_In _ 52) | ].
  all: reflexivity.
Qed.

Lemma colour_composites_drawn_alike_witness :
  exists rgb1 rgb2 a1 a2 third,
    invocations "plot.imshow" (calls sim_run) =
      [(Invoke "plot.imshow" [rgb1]
          [("vmin", VInt 0); ("vmax", VFloat (3 # 10))], Ok a1);
       (Invoke "plot.imshow" [rgb2]
          [("vmin", VInt 0); ("vmax", VFloat (3 # 10))], Ok a2);
       third].
Proof.
  destruct (colour_composites_drawn_alike Sim.lib [] sim_completed)
    as (dr & cd & rgb1 & rgb2 & f1 & f2 & a1 & a2 & third & H).
  exists rgb1, rgb2, a1, a2, third. tauto.
Defined.

(** Extra X12.  In a completed run the overlay of cell 31 puts both layers
    on the same axes.  [plt.subplots] answers an iterable of two items,
    which are bound to [fig] and [ax]; the next seven actions are: band 4 of [data] is
    selected and drawn by [plot.imshow] with [ax=ax]; the [boundary] of
    [bounds] is read and drawn by [plot] with the same [ax]; then the title
    is set and the figure shown.  [bounds] is what [gpd.read_file] returned
    for the boundary file. *)
Theorem overlay_shares_the_axes {W : Type}
  (lib : action -> W -> result * W) (w : W) :
  let r := interp lib notebook w in
  completed r ->
  exists data bounds fig ax pair band boundary a1 a2 a3 a4 a5,
    lookup "data" (final_ns r) = Some data /\
    lookup "bounds" (final_ns r) = Some bounds /\
    lookup "fig" (final_ns r) = Some fig /\
    lookup "ax" (final_ns r) = Some ax /\
    items pair = Some [fig; ax] /\
    invocations "geopandas.read_file" (calls r) =
      [(Invoke "geopandas.read_file" [VStr boundary_url] [], Ok bounds)] /\
    firstn 8 (skipn 59 (calls r)) =
      [(Invoke "matplotlib.pyplot.subplots" []
          [("figsize", VTuple [VInt 8; VInt 8])], Ok pair);
       (Invoke "sel" [data] [("band", VInt 4)], Ok band);
       (Invoke "plot.imshow" [band]
          [("ax", ax); ("vmin", VInt 0); ("vmax", VFloat (4 # 10));
           ("cmap", VStr "gray")], Ok a1);
       (GetAttr bounds "boundary", Ok boundary);
       (Invoke "plot" [boundary] [("ax", ax); ("color", VStr "red")], Ok a2);
       (Invoke "matplotlib.pyplot.title"
          [VStr "Raster with Vector Overlay"] [], Ok a3);
       (Invoke "matplotlib.pyplot.show" [] [], Ok a4);
       (Invoke "displayhook" [a4] [], Ok a5)].
Proof.
  intros r Hc; subst r. open_run lib w Hc r Hr vs Hact Hans Hns.
  all: rewrite calls_combine, Hact, Hans, <- Hns.
  all: do 12 eexists.
  all: do 4 (split; [ reflexivity | ]).
  all: split; [ | split; reflexivity ].
  all: reflexivity.
Qed.

Lemma overlay_shares_the_axes_witness :
  exists ax boundary a2,
    lookup "ax" (final_ns sim_run) = Some ax /\
    nth_error (firstn 8 (skipn 59 (calls sim_run))) 4 =
      Some (Invoke "plot" [boundary] [("ax", ax); ("color", VStr "red")],
            Ok a2).
Proof.
  destruct (overlay_shares_the_axes Sim.lib [] sim_completed)
    as (data & bounds & fig & ax & pair & band & boundary
        & a1 & a2 & a3 & a4 & a5 & _ & _ & _ & Hax & _ & _ & H).
  exists ax, boundary, a2. split; [ exact Hax | ].
  unfold sim_run. rewrite H. reflexivity.
Defined.

(** ** Selection by an ascending slice *)

Module AscendingSliceFacts.

Import LabelSlice.
Import LabelSliceFacts.

Lemma increasing_tail (y : Q) (rest : list Q) :
  strictly_increasing (y :: rest) -> strictly_increasing rest.
Proof. destruct rest; cbn; tauto. Qed.

Lemma increasing_above (y : Q) (rest : list Q) :
  strictly_increasing (y :: rest) -> Forall (fun z => (y < z)%Q) rest.
Proof.
  revert y; induction rest as [ | b rest IH]; intros y H; constructor.
  - apply H.
  - destruct H as [Hb H]. specialize (IH b H).
    eapply Forall_impl; [ | exact IH ]. cbn. intros z Hz. lra.
Qed.

Lemma increasing_is_monotonic (ys : list Q) :
  strictly_increasing ys -> is_monotonic_increasing ys = true.
Proof.
  induction ys as [ | a rest IH]; [ reflexivity | ].
  destruct rest as [ | b rest]; [ reflexivity | ].
  intros [H Hrest]. cbn [is_monotonic_increasing].
  apply andb_true_iff. split; [ qbool; lra | apply IH, Hrest ].
Qed.

(** Past a label that does not sort before [v], none does. *)
Lemma none_sorts_before (s : side) (v y : Q) (rest : list Q) :
  strictly_increasing (y :: rest) -> sorts_before s v y = false ->
  filter (sorts_before s v) rest = [].
Proof.
  intros H E. apply filter_none.
  eapply Forall_impl; [ | exact (increasing_above _ _ H) ]. cbn.
  intros z Hz. destruct s; cbn in *.
  - apply negb_false_iff in E. apply negb_false_iff. qbool. lra.
  - qbool. lra.
Qed.

(** On an increasing index the insertion point is a count. *)
Lemma searchsorted_increasing (ys : list Q) (v : Q) (s : side) :
  strictly_increasing ys ->
  searchsorted ys v s = count (sorts_before s v) ys.
Proof.
  induction ys as [ | y rest IH]; intro H; [ reflexivity | ].
  specialize (IH (increasing_tail _ _ H)).
  unfold count in *. cbn [searchsorted filter].
  destruct (sorts_before s v y) eqn:E.
  - cbn. now rewrite IH.
  - now rewrite (none_sorts_before s v y rest H E).
Qed.

Lemma get_loc_increasing (ys : list Q) (v : Q) (i : nat) :
  strictly_increasing ys -> get_loc ys v = Some i ->
  i = count (sorts_before Left v) ys /\
  S i = count (sorts_before Right v) ys.
Proof.
  revert i; induction ys as [ | y rest IH]; intros i H G; [ discriminate G | ].
  pose proof (increasing_above _ _ H) as Habove.
  cbn in G. unfold count in *. cbn [filter].
  destruct (Qeq_bool y v) eqn:E.
  - injection G as <-. qbool.
    assert (Hl : sorts_before Left v y = false).
    { cbn. apply negb_false_iff. qbool. lra. }
    assert (Hr : sorts_before Right v y = true) by (cbn; qbool; lra).
    rewrite Hl, Hr. cbn [length].
    rewrite (none_sorts_before Left v y rest H Hl).
    rewrite (filter_none (sorts_before Right v) rest); [ auto | ].
    eapply Forall_impl; [ | exact Habove ]. cbn. intros z Hz. qbool. lra.
  - destruct (get_loc rest v) as [i' | ] eqn:G'; [ | discriminate G ].
    injection G as <-.
    destruct (IH i' (increasing_tail _ _ H) eq_refl) as [I1 I2].
    assert (Hv : (y < v)%Q).
    { assert (Hin : exists z, In z rest /\ (z == v)%Q).
      { clear - G'. revert i' G'.
        induction rest as [ | z rest IHr]; intros i' G';
          [ discriminate G' | ]. cbn in G'.
        destruct (Qeq_bool z v) eqn:Ez.
        - exists z. split; [ now left | now apply Qeq_bool_iff ].
        - destruct (get_loc rest v) as [k | ]; [ | discriminate G' ].
          destruct (IHr k eq_refl) as [z' [Hz' Hq]].
          exists z'. split; [ now right | exact Hq ]. }
      destruct Hin as [z [Hz Hq]].
      rewrite Forall_forall in Habove. specialize (Habove z Hz). lra. }
    assert (Hl : sorts_before Left v y = true).
    { cbn. apply negb_true_iff. qbool. lra. }
    assert (Hr : sorts_before Right v y = true) by (cbn; qbool; lra).
    rewrite Hl, Hr. cbn [length]. lia.
Qed.

Lemma bound_increasing (ys : list Q) (v : Q) (s : side) :
  strictly_increasing ys ->
  get_slice_bound ys v s = Some (count (sorts_before s v) ys).
Proof.
  intro H. unfold get_slice_bound.
  destruct (get_loc ys v) as [i | ] eqn:G.
  - destruct (get_loc_increasing ys v i H G) as [E1 E2].
    destruct s; congruence.
  - unfold searchsorted_monotonic.
    rewrite increasing_is_monotonic by assumption.
    now rewrite searchsorted_increasing.
Qed.

Lemma islice_increasing (ys : list Q) (lo hi : Q) :
  strictly_increasing ys ->
  islice ys (count (sorts_before Left lo) ys) (count (sorts_before Right hi) ys)
  = filter (in_range lo hi) ys.
Proof.
  induction ys as [ | y rest IH]; intro H; [ reflexivity | ].
  pose proof (increasing_above _ _ H) as Habove.
  specialize (IH (increasing_tail _ _ H)).
  unfold islice, count in *. cbn [filter].
  assert (Hin : in_range lo hi y
                = negb (sorts_before Left lo y) && sorts_before Right hi y).
  { unfold in_range. cbn. now rewrite negb_involutive. }
  rewrite Hin.
  destruct (sorts_before Left lo y) eqn:El, (sorts_before Right hi y) eqn:Er;
    cbn [negb andb length].
  - (* y < lo, y <= hi *)
    cbn. exact IH.
  - (* y < lo, hi < y *)
    rewrite (none_sorts_before Right hi y rest H Er). cbn.
    symmetry. apply filter_none.
    eapply Forall_impl; [ | exact Habove ]. cbn. intros z Hz.
    unfold in_range. apply andb_false_iff. right. cbn in Er. qbool. lra.
  - (* lo <= y <= hi *)
    rewrite (none_sorts_before Left lo y rest H El) in *. cbn in *.
    rewrite Nat.sub_0_r in IH. now rewrite IH.
  - (* lo <= y, hi < y *)
    rewrite (none_sorts_before Left lo y rest H El).
    rewrite (none_sorts_before Right hi y rest H Er). cbn.
    symmetry. apply filter_none.
    eapply Forall_impl; [ | exact Habove ]. cbn. intros z Hz.
    unfold in_range. apply andb_false_iff. right. cbn in Er. qbool. lra.
Qed.

Lemma sel_slice_increasing (ys : list Q) (start stop : Q) :
  strictly_increasing ys ->
  sel_slice ys start stop = Some (filter (in_range start stop) ys).
Proof.
  intro H. unfold sel_slice, slice_locs.
  rewrite !bound_increasing by assumption.
  now rewrite islice_increasing.
Qed.

End AscendingSliceFacts.

(** Extra X13.  Cell 25 selects on [data_reprojected] with the [x] slice
    running from [min_x] up to [max_x], and [min_x < max_x].  For every
    strictly increasing coordinate, of any length, that slice keeps exactly
    the columns with [min_x <= x <= max_x], in their order; the slice from
    [max_x] down to [min_x] would keep none. *)
Theorem ascending_slice_selects_range {W : Type}
  (lib : action -> W -> result * W) (w : W) (xs : list Q) :
  let r := interp lib notebook w in
  completed r ->
  strictly_increasing xs ->
  (exists data_reprojected subset,
      lookup "data_reprojected" (final_ns r) = Some data_reprojected /\
      lookup "subset" (final_ns r) = Some subset /\
      invocations "sel" (firstn 42 (calls r)) =
        [(Invoke "sel" [data_reprojected]
            [("x", VSlice (VFloat min_x) (VFloat max_x));
             ("y", VSlice (VFloat max_y) (VFloat min_y))],
          Ok subset)]) /\
  (min_x < max_x)%Q /\
  LabelSlice.sel_slice xs min_x max_x
  = Some (filter (LabelSlice.in_range min_x max_x) xs) /\
  (forall x, In x (filter (LabelSlice.in_range min_x max_x) xs) <->
             In x xs /\ (min_x <= x)%Q /\ (x <= max_x)%Q) /\
  LabelSlice.sel_slice xs max_x min_x = Some [].
Proof.
  intros r Hc Hinc. subst r.
  split; [ | split; [ reflexivity | split; [ | split ] ] ].
  - open_run lib w Hc r Hr vs Hact Hans Hns.
    all: rewrite calls_combine, Hact, Hans, <- Hns.
    all: do 2 eexists.
    all: do 2 (split; [ reflexivity | ]).
    all: reflexivity.
  - now apply AscendingSliceFacts.sel_slice_increasing.
  - intro x. rewrite filter_In. unfold LabelSlice.in_range.
    rewrite andb_true_iff, !Qle_bool_iff. tauto.
  - rewrite AscendingSliceFacts.sel_slice_increasing by assumption.
    rewrite LabelSliceFacts.empty_range; reflexivity.
Qed.

Lemma ascending_slice_selects_range_witness :
  LabelSlice.sel_slice [(-116 # 1); (-1152 # 10); (-114 # 1)]%Q min_x max_x
  = Some (filter (LabelSlice.in_range min_x max_x)
            [(-116 # 1); (-1152 # 10); (-114 # 1)]%Q)
  /\ LabelSlice.sel_slice [(-116 # 1); (-1152 # 10); (-114 # 1)]%Q max_x min_x
     = Some [].
Proof.
  destruct (ascending_slice_selects_range Sim.lib []
              [(-116 # 1); (-1152 # 10); (-114 # 1)]%Q sim_completed)
    as (_ & _ & H1 & _ & H2).
  - cbn. repeat split; reflexivity.
  - split; assumption.
Defined.
